(** * waprint: the chat print server (bot.js), embedded and checked

    The class [EnhancedWhatsAppPrintBot] of [bot.js] keeps five mutable
    containers (print queue, sessions, user statistics, rate windows, history)
    and drives them from asynchronous message handlers.  This development
    embeds the handlers of the job lifecycle as state transformers over a
    record of those containers.  What the handlers do to the outside world
    (chat replies, print attempts, timers, clock reads) is kept as an event
    trace; what the outside world answers (printer health, print results,
    whether a chat send goes through) is supplied by a [World] record. *)

From Stdlib Require Import ZArith Lia Ascii String.
From stdpp Require Import gmap strings list fin_maps pretty.

Local Open Scope Z_scope.

(** ** Data model *)

Module Model.

(** [printJob.status]: the four string constants the code assigns. *)
Inductive Status := pending | printing | completed | failed.

#[global] Instance Status_eq_dec : EqDecision Status.
Proof. solve_decision. Defined.

(** [printJob.printOptions] as built in [handleFileMessage]. *)
Record PrintOptions := mkOptions {
  color : bool;
  duplex : bool;
  paperSize : string;
  quality : string
}.

(** The object literal of [handleFileMessage], with the three timestamps
    that [processPrintJob] adds later ([None] while the property is unset). *)
Record PrintJob := mkJob {
  id : string;
  fileName : string;
  originalName : string;
  filePath : string;
  extension : string;
  pageCount : Z;
  fileSize : Z;
  chatId : string;
  userNumber : string;
  status : Status;
  copies : Z;
  printOptions : PrintOptions;
  createdAt : Z;
  estimatedCost : Z;
  startedAt : option Z;
  completedAt : option Z;
  failedAt : option Z
}.

(** [session.step] *)
Inductive Step := confirm_print | set_copies | set_options.

Record Session := mkSession {
  step : Step;
  printJobId : string;
  lastActivity : Z
}.

Record UserStat := mkStat {
  totalRequests : Z;
  totalPrints : Z;
  totalPages : Z;
  firstSeen : Z;
  lastSeen : Z
}.

(** The parts of [config.json] the lifecycle reads. *)
Record Config := mkConfig {
  defaultCopies : Z;
  maxRequestsPerHour : nat
}.

(** [loadConfig]'s fallback object. *)
Definition defaultConfig : Config :=
  {| defaultCopies := 1; maxRequestsPerHour := 50 |}.

End Model.
Export Model.

(** ** Rate limiter *)

Module RateLimiter.

(** [60 * 60 * 1000] *)
Definition hour : Z := 60 * 60 * 1000.

(** [userRequests.filter(timestamp => timestamp > hourAgo)] *)
Definition recent (hourAgo : Z) (userRequests : list Z) : list Z :=
  filter (fun timestamp => hourAgo < timestamp) userRequests.

(** [checkRateLimit(userNumber)] with [Date.now()] read as [now].  The array
    stored by [rateLimit.set] is the very array that receives [push], so the
    pushed stamp is visible in the map. *)
Definition checkRateLimit (cfg : Config) (now : Z) (userNumber : string)
    (rateLimit : gmap string (list Z)) : bool * gmap string (list Z) :=
  let hourAgo := now - hour in
  let rateLimit0 :=
    match rateLimit !! userNumber with
    | Some _ => rateLimit
    | None => <[userNumber := []]> rateLimit
    end in
  let userRequests := default [] (rateLimit0 !! userNumber) in
  let recentRequests := recent hourAgo userRequests in
  let rateLimit1 := <[userNumber := recentRequests]> rateLimit0 in
  if (maxRequestsPerHour cfg <=? length recentRequests)%nat
  then (false, rateLimit1)
  else (true, <[userNumber := recentRequests ++ [now]]> rateLimit1).

(** A run of the limiter over a sequence of calls [(sender, clock)]: the
    answers in call order, and the final map. *)
Fixpoint serve (cfg : Config) (calls : list (string * Z))
    (rateLimit : gmap string (list Z)) : list bool * gmap string (list Z) :=
  match calls with
  | [] => ([], rateLimit)
  | (u, now) :: rest =>
      let '(b, rl1) := checkRateLimit cfg now u rateLimit in
      let '(bs, rl2) := serve cfg rest rl1 in
      (b :: bs, rl2)
  end.

(** The calls of sender [u] that were answered [true], as clock values. *)
Fixpoint granted (u : string) (calls : list (string * Z)) (answers : list bool)
    : list Z :=
  match calls, answers with
  | (v, now) :: cs, b :: bs =>
      if b && bool_decide (v = u) then now :: granted u cs bs
      else granted u cs bs
  | _, _ => []
  end.

(** Stamps inside the trailing window that ends at [t]: the window the code
    itself uses, [t - hour < stamp <= t]. *)
Definition in_window (t : Z) (stamps : list Z) : list Z :=
  filter (fun s => t - hour < s ∧ s ≤ t) stamps.

(** The clock never runs backwards along the call sequence. *)
Fixpoint clock_monotone (last : Z) (calls : list (string * Z)) : Prop :=
  match calls with
  | [] => True
  | (_, now) :: rest => last ≤ now ∧ clock_monotone now rest
  end.

(** The invariant of a run, for one sender [u]: the stored window is the
    purge, at some past clock value, of everything granted so far; nothing
    granted lies in the future; and no trailing window holds more than the
    cap. *)
Record inv (cfg : Config) (u : string) (last : Z) (prev : list Z)
    (rl : gmap string (list Z)) : Prop := {
  inv_stored : ∃ c, c ≤ last ∧ default [] (rl !! u) = recent (c - hour) prev;
  inv_past : Forall (fun s => s ≤ last) prev;
  inv_bound : ∀ t, (length (in_window t prev) ≤ maxRequestsPerHour cfg)%nat
}.

End RateLimiter.

(** ** JavaScript string built-ins used by the handlers *)

Module JsString.

(** A JavaScript string is held as the bytes of its UTF-8 encoding. *)

Definition is_upper (c : ascii) : bool :=
  (65 <=? nat_of_ascii c)%nat && (nat_of_ascii c <=? 90)%nat.

Definition lower_char (c : ascii) : ascii :=
  if is_upper c then ascii_of_nat (nat_of_ascii c + 32) else c.

Definition byte (n : nat) (c : ascii) : bool := (nat_of_ascii c =? n)%nat.

(** Every byte is below 128: the string is made of ASCII characters only.
    On such a string [toLowerCase] and [trim] below are JavaScript's, byte
    for byte. *)
Fixpoint ascii_only (s : string) : bool :=
  match s with
  | EmptyString => true
  | String c s' => (nat_of_ascii c <? 128)%nat && ascii_only s'
  end.

(** [String.prototype.toLowerCase].  The ASCII letters are mapped, and so
    are the two characters outside ASCII whose lower case holds an ASCII
    letter: U+212A KELVIN SIGN (bytes E2 84 AA) becomes [k], and U+0130
    (bytes C4 B0) becomes [i] followed by U+0307 (bytes CC 87).  Every other
    byte is left as it is: JavaScript also maps the other upper-case letters
    outside ASCII, to letters that are again outside ASCII, so beyond
    [ascii_only] strings the result agrees with JavaScript's on its ASCII
    characters and on where they stand, not on the other letters. *)
Fixpoint toLowerCase (s : string) : string :=
  match s with
  | EmptyString => EmptyString
  | String c s' =>
      if byte 196 c then
        match s' with
        | String d r =>
            if byte 176 d
            then String "i"%char
                   (String (ascii_of_nat 204)
                      (String (ascii_of_nat 135) (toLowerCase r)))
            else String c (toLowerCase s')
        | EmptyString => String c EmptyString
        end
      else if byte 226 c then
        match s' with
        | String d (String e r) =>
            if byte 132 d && byte 170 e
            then String "k"%char (toLowerCase r)
            else String c (toLowerCase s')
        | _ => String c (toLowerCase s')
        end
      else String (lower_char c) (toLowerCase s')
  end.

(** White space and line terminators of one byte: space, tab, LF, VT, FF,
    CR. *)
Definition is_space (c : ascii) : bool :=
  let n := nat_of_ascii c in
  (n =? 32)%nat || ((9 <=? n)%nat && (n <=? 13)%nat).

(** Of two bytes: U+00A0 (C2 A0). *)
Definition is_space2 (c d : ascii) : bool := byte 194 c && byte 160 d.

(** Of three bytes: U+1680 (E1 9A 80), U+2000 to U+200A (E2 80 80 to
    E2 80 8A), U+2028 and U+2029 (E2 80 A8, E2 80 A9), U+202F (E2 80 AF),
    U+205F (E2 81 9F), U+3000 (E3 80 80) and U+FEFF (EF BB BF). *)
Definition is_space3 (c d e : ascii) : bool :=
  let n := nat_of_ascii e in
  (byte 225 c && byte 154 d && byte 128 e)
  || (byte 226 c && byte 128 d
      && (((128 <=? n)%nat && (n <=? 138)%nat)
          || (n =? 168)%nat || (n =? 169)%nat || (n =? 175)%nat))
  || (byte 226 c && byte 129 d && byte 159 e)
  || (byte 227 c && byte 128 d && byte 128 e)
  || (byte 239 c && byte 187 d && byte 191 e).

(** Removal of the white space at the head of the string.  With
    [back := true] the string is read from its end, the bytes of each
    character coming last byte first. *)
Fixpoint strip (back : bool) (s : string) : string :=
  match s with
  | EmptyString => EmptyString
  | String c s1 =>
      if is_space c then strip back s1
      else
        match s1 with
        | EmptyString => s
        | String d s2 =>
            if (if back then is_space2 d c else is_space2 c d)
            then strip back s2
            else
              match s2 with
              | EmptyString => s
              | String e s3 =>
                  if (if back then is_space3 e d c else is_space3 c d e)
                  then strip back s3
                  else s
              end
        end
  end.

Definition trimStart (s : string) : string := strip false s.

Definition trimEnd (s : string) : string :=
  String.rev (strip true (String.rev s)).

(** [String.prototype.trim]: the white space and line terminators of
    ECMAScript, removed at both ends. *)
Definition trim (s : string) : string := trimEnd (trimStart s).

(** [s.replace(pat, by)] for a string pattern: the first occurrence only. *)
Fixpoint replace (pat by_ : string) (s : string) : string :=
  if String.prefix pat s
  then by_ +:+ String.substring (String.length pat) (String.length s - String.length pat) s
  else match s with
       | EmptyString => EmptyString
       | String c s' => String c (replace pat by_ s')
       end.

(** Value of a digit in the given radix, if it is one. *)
Definition digit (radix : Z) (c : ascii) : option Z :=
  let n := Z.of_nat (nat_of_ascii c) in
  let v := if (48 <=? n) && (n <=? 57) then Some (n - 48)
           else if (97 <=? n) && (n <=? 122) then Some (n - 87)
           else if (65 <=? n) && (n <=? 90) then Some (n - 55)
           else None in
  match v with
  | Some d => if d <? radix then Some d else None
  | None => None
  end.

(** Longest prefix of digits, folded left to right; [None] when there is
    no digit at all. *)
Fixpoint digits (radix : Z) (acc : option Z) (s : string) : option Z :=
  match s with
  | EmptyString => acc
  | String c s' =>
      match digit radix c with
      | Some d => digits radix (Some (default 0 acc * radix + d)) s'
      | None => acc
      end
  end.

(** [parseInt(s)] with no radix argument; [None] is [NaN].  Leading white
    space and one sign are skipped, a [0x] prefix selects radix 16, and
    whatever follows the digits is ignored. *)
Definition parseInt (s : string) : option Z :=
  let s1 := trimStart s in
  let '(sign, s2) :=
    match s1 with
    | String "-"%char r => (-1, r)
    | String "+"%char r => (1, r)
    | _ => (1, s1)
    end in
  let '(radix, s3) :=
    match s2 with
    | String "0"%char (String "x"%char r) => (16, r)
    | String "0"%char (String "X"%char r) => (16, r)
    | _ => (10, s2)
    end in
  match digits radix None s3 with
  | Some n => Some (sign * n)
  | None => None
  end.

End JsString.

(** ** The bot: state, effects and the completion monad *)

Module Bot.

Import JsString.

(** An inbound chat message, as far as the handlers read it. *)
Record Message := mkMessage {
  from : string;
  body : string
}.

(** Outbound texts, one constructor for each template of the source. *)
Inductive Text :=
| TDownloading                (* 'Mengunduh file... Mohon tunggu sebentar.' *)
| TDownloadFailed             (* 'Gagal mengunduh file. Silakan coba lagi.' *)
| TValidation (message : string)              (* validationResult.message *)
| TFileError                  (* 'Terjadi kesalahan saat memproses file...' *)
| TConfirmation (printJob : PrintJob) (hasColor : bool) (queueSize : nat)
                              (* buildConfirmationMessage *)
| TInvalidResponse            (* 'Respon tidak valid. Ketik YA, BATAL, atau OPSI' *)
| TJobNotFound                (* 'Print job tidak ditemukan.' *)
| TOptionsMenu (originalName : string)        (* 'Opsi Cetak - ...' *)
| TAskCopies                  (* 'Masukkan jumlah salinan (1-10):' *)
| TDuplex (on : bool)         (* 'Duplex printing: ON/OFF' *)
| TInvalidChoice              (* 'Pilihan tidak valid. Ketik nomor 1-5.' *)
| TCopiesRange                (* 'Jumlah salinan harus antara 1-10. Coba lagi:' *)
| TCopiesChanged (copies : Z) (* 'Jumlah salinan diubah menjadi: ...' *)
| TProcessing                 (* 'Memproses print job... Mohon tunggu sebentar.' *)
| TPrinterOffline             (* 'Printer sedang offline atau bermasalah...' *)
| TSending                    (* 'Mengirim ke printer...' *)
| TSuccess (printJob : PrintJob)              (* buildSuccessMessage *)
| TPrintFailed                (* 'Print gagal setelah beberapa percobaan...' *)
| TSystemError.               (* 'Terjadi kesalahan sistem saat mencetak...' *)

(** What a run does to the outside world, in order. *)
Inductive Event :=
| Reply (t : Text)                      (* await message.reply(t) *)
| Edit (t : Text)                       (* await processingMsg.edit(t) *)
| SendRejected (t : Text)               (* a reply or edit whose promise rejects *)
| Log (level message : string)          (* this.log(level, message, ...) *)
| ConsoleError                          (* console.error(...) *)
| CheckPrinter                          (* await this.checkPrinter() *)
| ExecutePrint (printJob : PrintJob)    (* await this.executePrint(printJob) *)
| Sleep (ms : Z).                       (* await new Promise(r => setTimeout(r, ms)) *)

(** A callback handed to [setTimeout]; the source has one. *)
Inductive Callback := CleanupPrintJob (printJobId : string).

Record Timer := mkTimer { due : Z; callback : Callback }.

(** The fields of the class instance, the temp files it owns, its pending
    timers and the wall clock. *)
Record Bot := mkBot {
  config : Config;
  printQueue : gmap string PrintJob;
  userSessions : gmap string Session;
  userStats : gmap string UserStat;
  rateLimit : gmap string (list Z);
  printHistory : list PrintJob;
  timers : list Timer;
  files : gset string;
  now : Z
}.

(** The constructor: empty containers. *)
Definition newBot (cfg : Config) (t : Z) : Bot :=
  {| config := cfg; printQueue := ∅; userSessions := ∅; userStats := ∅;
     rateLimit := ∅; printHistory := []; timers := []; files := ∅; now := t |}.

(** What the outside world answers during one run. *)
Record World := mkWorld {
  sendOk : nat -> bool;             (* does the n-th reply/edit of the run resolve (from 0) *)
  checkPrinterOnline : bool;        (* what checkPrinter() resolves to *)
  executePrintOk : nat -> bool;     (* what the n-th executePrint() of the run resolves to (from 1) *)
  unlinkOk : string -> bool         (* does fs.unlinkSync(path) go through *)
}.

Inductive Error :=
| TypeError (message : string)
| TransportError
| FsError.

(** How a block of statements ends: normally with a value, by a [return]
    statement, or by a thrown error. *)
Inductive Completion (A : Type) :=
| Normal (a : A)
| Return_
| Throw (e : Error).
Arguments Normal {A} a.
Arguments Return_ {A}.
Arguments Throw {A} e.

(** One run: the bot and the events so far. *)
Record Run := mkRun { bot : Bot; trace : list Event }.

Record M (A : Type) := mkM { run : Run -> Completion A * Run }.
Arguments mkM {A} _.
Arguments run {A} _ _.

#[global] Instance M_ret : MRet M := fun A a => mkM (fun r => (Normal a, r)).

#[global] Instance M_bind : MBind M := fun A B f m =>
  mkM (fun r =>
    match run m r with
    | (Normal a, r') => run (f a) r'
    | (Return_, r') => (Return_, r')
    | (Throw e, r') => (Throw e, r')
    end).

(** A [return;] statement and a [throw]. *)
Definition return_ {A} : M A := mkM (fun r => (Return_, r)).
Definition throw {A} (e : Error) : M A := mkM (fun r => (Throw e, r)).

(** [try { body } catch (error) { handler }]: a [return] inside the body
    leaves the whole function, the handler sees thrown errors only. *)
Definition try_catch {A} (body : M A) (handler : Error -> M A) : M A :=
  mkM (fun r =>
    match run body r with
    | (Throw e, r') => run (handler e) r'
    | res => res
    end).

(** The function boundary: a [return;] ends the call normally. *)
Definition function (body : M unit) : M unit :=
  mkM (fun r =>
    match run body r with
    | (Return_, r') => (Normal (), r')
    | res => res
    end).

(** A whole run of a handler on a bot, starting with an empty trace. *)
Definition exec {A} (m : M A) (b : Bot) : Completion A * Run :=
  run m {| bot := b; trace := [] |}.

Definition get : M Bot := mkM (fun r => (Normal (bot r), r)).
Definition modify (f : Bot -> Bot) : M unit :=
  mkM (fun r => (Normal (), {| bot := f (bot r); trace := trace r |})).
Definition emit (e : Event) : M unit :=
  mkM (fun r => (Normal (), {| bot := bot r; trace := trace r ++ [e] |})).
Definition getTrace : M (list Event) := mkM (fun r => (Normal (trace r), r)).

(** Field updates of [Bot] and [PrintJob]. *)
Definition with_printQueue (f : gmap string PrintJob -> gmap string PrintJob) (b : Bot) : Bot :=
  {| config := config b; printQueue := f (printQueue b); userSessions := userSessions b;
     userStats := userStats b; rateLimit := rateLimit b; printHistory := printHistory b;
     timers := timers b; files := files b; now := now b |}.
Definition with_userSessions (f : gmap string Session -> gmap string Session) (b : Bot) : Bot :=
  {| config := config b; printQueue := printQueue b; userSessions := f (userSessions b);
     userStats := userStats b; rateLimit := rateLimit b; printHistory := printHistory b;
     timers := timers b; files := files b; now := now b |}.
Definition with_userStats (f : gmap string UserStat -> gmap string UserStat) (b : Bot) : Bot :=
  {| config := config b; printQueue := printQueue b; userSessions := userSessions b;
     userStats := f (userStats b); rateLimit := rateLimit b; printHistory := printHistory b;
     timers := timers b; files := files b; now := now b |}.
Definition with_printHistory (f : list PrintJob -> list PrintJob) (b : Bot) : Bot :=
  {| config := config b; printQueue := printQueue b; userSessions := userSessions b;
     userStats := userStats b; rateLimit := rateLimit b; printHistory := f (printHistory b);
     timers := timers b; files := files b; now := now b |}.
Definition with_timers (f : list Timer -> list Timer) (b : Bot) : Bot :=
  {| config := config b; printQueue := printQueue b; userSessions := userSessions b;
     userStats := userStats b; rateLimit := rateLimit b; printHistory := printHistory b;
     timers := f (timers b); files := files b; now := now b |}.
Definition with_files (f : gset string -> gset string) (b : Bot) : Bot :=
  {| config := config b; printQueue := printQueue b; userSessions := userSessions b;
     userStats := userStats b; rateLimit := rateLimit b; printHistory := printHistory b;
     timers := timers b; files := f (files b); now := now b |}.
Definition with_now (f : Z -> Z) (b : Bot) : Bot :=
  {| config := config b; printQueue := printQueue b; userSessions := userSessions b;
     userStats := userStats b; rateLimit := rateLimit b; printHistory := printHistory b;
     timers := timers b; files := files b; now := f (now b) |}.

Definition with_status (s : Status) (j : PrintJob) : PrintJob :=
  {| id := id j; fileName := fileName j; originalName := originalName j;
     filePath := filePath j; extension := extension j; pageCount := pageCount j;
     fileSize := fileSize j; chatId := chatId j; userNumber := userNumber j;
     status := s; copies := copies j; printOptions := printOptions j;
     createdAt := createdAt j; estimatedCost := estimatedCost j;
     startedAt := startedAt j; completedAt := completedAt j; failedAt := failedAt j |}.
Definition with_copies (c : Z) (j : PrintJob) : PrintJob :=
  {| id := id j; fileName := fileName j; originalName := originalName j;
     filePath := filePath j; extension := extension j; pageCount := pageCount j;
     fileSize := fileSize j; chatId := chatId j; userNumber := userNumber j;
     status := status j; copies := c; printOptions := printOptions j;
     createdAt := createdAt j; estimatedCost := estimatedCost j;
     startedAt := startedAt j; completedAt := completedAt j; failedAt := failedAt j |}.
Definition with_estimatedCost (cost : Z) (j : PrintJob) : PrintJob :=
  {| id := id j; fileName := fileName j; originalName := originalName j;
     filePath := filePath j; extension := extension j; pageCount := pageCount j;
     fileSize := fileSize j; chatId := chatId j; userNumber := userNumber j;
     status := status j; copies := copies j; printOptions := printOptions j;
     createdAt := createdAt j; estimatedCost := cost;
     startedAt := startedAt j; completedAt := completedAt j; failedAt := failedAt j |}.
Definition with_printOptions (o : PrintOptions) (j : PrintJob) : PrintJob :=
  {| id := id j; fileName := fileName j; originalName := originalName j;
     filePath := filePath j; extension := extension j; pageCount := pageCount j;
     fileSize := fileSize j; chatId := chatId j; userNumber := userNumber j;
     status := status j; copies := copies j; printOptions := o;
     createdAt := createdAt j; estimatedCost := estimatedCost j;
     startedAt := startedAt j; completedAt := completedAt j; failedAt := failedAt j |}.
Definition with_startedAt (t : Z) (j : PrintJob) : PrintJob :=
  {| id := id j; fileName := fileName j; originalName := originalName j;
     filePath := filePath j; extension := extension j; pageCount := pageCount j;
     fileSize := fileSize j; chatId := chatId j; userNumber := userNumber j;
     status := status j; copies := copies j; printOptions := printOptions j;
     createdAt := createdAt j; estimatedCost := estimatedCost j;
     startedAt := Some t; completedAt := completedAt j; failedAt := failedAt j |}.
Definition with_completedAt (t : Z) (j : PrintJob) : PrintJob :=
  {| id := id j; fileName := fileName j; originalName := originalName j;
     filePath := filePath j; extension := extension j; pageCount := pageCount j;
     fileSize := fileSize j; chatId := chatId j; userNumber := userNumber j;
     status := status j; copies := copies j; printOptions := printOptions j;
     createdAt := createdAt j; estimatedCost := estimatedCost j;
     startedAt := startedAt j; completedAt := Some t; failedAt := failedAt j |}.
Definition with_failedAt (t : Z) (j : PrintJob) : PrintJob :=
  {| id := id j; fileName := fileName j; originalName := originalName j;
     filePath := filePath j; extension := extension j; pageCount := pageCount j;
     fileSize := fileSize j; chatId := chatId j; userNumber := userNumber j;
     status := status j; copies := copies j; printOptions := printOptions j;
     createdAt := createdAt j; estimatedCost := estimatedCost j;
     startedAt := startedAt j; completedAt := completedAt j; failedAt := Some t |}.
Definition toggle_duplex (o : PrintOptions) : PrintOptions :=
  {| color := color o; duplex := negb (duplex o);
     paperSize := paperSize o; quality := quality o |}.

(** The methods the class body of [EnhancedWhatsAppPrintBot] defines, in
    source order.  A call [this.name(...)] of any other name finds
    [undefined] and throws a [TypeError]. *)
Definition methods : list string :=
  [ "constructor"; "loadConfig"; "initLogging"; "log"; "initBot";
    "handleMessage"; "isAdmin"; "checkRateLimit"; "updateUserStats";
    "handleAdminCommand"; "handleCommand"; "handleFileMessage";
    "validateFile"; "performSecurityCheck"; "analyzeFile";
    "detectColorInPDF"; "getImageDimensions"; "calculatePrintCost";
    "buildConfirmationMessage"; "handleUserResponse"; "showPrintOptions";
    "handleOptionsInput"; "handleCopiesInput"; "showUpdatedConfirmation";
    "processPrintJob"; "buildSuccessMessage"; "executePrintWithRetry";
    "executePrint"; "checkPrinter"; "sendBotStats"; "sendUserStats";
    "sendDetailedQueue"; "checkPrinterStatus"; "testPrint";
    "sendConfigInfo"; "sendRecentLogs"; "broadcastMessage";
    "sendUserHistory"; "sendSupportedFormats"; "sendHelpMessage";
    "cleanupPrintJob"; "startPeriodicTasks"; "cleanupOldSessions";
    "cleanupOldPrintJobs"; "saveStats"; "rotateLogs"; "start"; "shutdown" ]%string.

(** [this.name(...)] for a name the class does not define. *)
Definition callUndefined (name : string) : M unit :=
  throw (TypeError ("this." +:+ name +:+ " is not a function")).

(** Chat sends attempted in the run so far, delivered or rejected. *)
Fixpoint count_sends (tr : list Event) : nat :=
  match tr with
  | [] => 0
  | (Reply _ | Edit _ | SendRejected _) :: tr' => S (count_sends tr')
  | _ :: tr' => count_sends tr'
  end.

(** Print attempts made in the run so far. *)
Fixpoint count_prints (tr : list Event) : nat :=
  match tr with
  | [] => 0
  | ExecutePrint _ :: tr' => S (count_prints tr')
  | _ :: tr' => count_prints tr'
  end.

(** [calculatePrintCost(pageCount, hasColor)] *)
Definition calculatePrintCost (pageCount : Z) (hasColor : bool) : Z :=
  let bwCostPerPage := 500 in
  let colorCostPerPage := 2000 in
  let costPerPage := if hasColor then colorCostPerPage else bwCostPerPage in
  pageCount * costPerPage.

(** What the chat transport and the file inspector hand to
    [handleFileMessage]: the download, [validateFile]'s verdict and
    [analyzeFile]'s facts. *)
Inductive Download :=
| DownloadThrows
| DownloadNull
| Downloaded (filename : option string).

Inductive Validation :=
| Invalid (message : string)
| Valid (extension : string) (fileSize : Z).

Record FileAnalysis := mkAnalysis { a_pageCount : Z; hasColor : bool }.

Record Upload := mkUpload {
  download : Download;
  validation : Validation;
  analysis : FileAnalysis
}.

Section Handlers.

Variable w : World.

(** *** Primitive effects *)

Definition send (delivered : Text -> Event) (t : Text) : M unit :=
  tr ← getTrace;
  if sendOk w (count_sends tr) then emit (delivered t)
  else emit (SendRejected t) ;; throw TransportError.

Definition reply (t : Text) : M unit := send Reply t.
Definition edit (t : Text) : M unit := send Edit t.
Definition log (level message : string) : M unit := emit (Log level message).

(** [Date.now()] and [new Date()] *)
Definition dateNow : M Z := b ← get; mret (now b).

(** [await new Promise(resolve => setTimeout(resolve, ms))] *)
Definition sleep (ms : Z) : M unit :=
  emit (Sleep ms) ;; modify (with_now (Z.add ms)).

(** [setTimeout(callback, ms)] without waiting for it. *)
Definition setTimeout (cb : Callback) (ms : Z) : M unit :=
  modify (fun b =>
    with_timers (fun ts => ts ++ [{| due := now b + ms; callback := cb |}]) b).

Definition checkPrinter : M bool :=
  emit CheckPrinter ;; mret (checkPrinterOnline w).

Definition executePrint (printJob : PrintJob) : M bool :=
  tr ← getTrace;
  emit (ExecutePrint printJob) ;;
  mret (executePrintOk w (S (count_prints tr))).

(** [this.printQueue.get / set / delete] and the same for sessions. *)
Definition queueGet (printJobId : string) : M (option PrintJob) :=
  b ← get; mret (printQueue b !! printJobId).
Definition queueSet (printJobId : string) (printJob : PrintJob) : M unit :=
  modify (with_printQueue <[printJobId := printJob]>).
Definition queueDelete (printJobId : string) : M unit :=
  modify (with_printQueue (delete printJobId)).
Definition sessionsGet (chatId : string) : M (option Session) :=
  b ← get; mret (userSessions b !! chatId).
Definition sessionsSet (chatId : string) (s : Session) : M unit :=
  modify (with_userSessions <[chatId := s]>).
Definition sessionsDelete (chatId : string) : M unit :=
  modify (with_userSessions (delete chatId)).

(** [this.userSessions.set(chatId, { step, printJobId, lastActivity: Date.now() })] *)
Definition setStep (chatId : string) (st : Step) (printJobId : string) : M unit :=
  t ← dateNow;
  sessionsSet chatId {| step := st; printJobId := printJobId; lastActivity := t |}.

(** [array.includes(x)] on an array of strings. *)
Definition includes (l : list string) (x : string) : bool :=
  existsb (String.eqb x) l.

(** *** File intake *)

(** [handleFileMessage(message)] *)
Definition handleFileMessage (message : Message) (up : Upload) : M unit :=
  function (
    let chatId := from message in
    let userNumber := replace "@c.us" "" (from message) in
    try_catch (
      log "info" "Processing file upload" ;;
      reply TDownloading ;;
      match download up with
      | DownloadThrows => throw TransportError
      | DownloadNull =>
          reply TDownloadFailed ;;
          log "error" "Failed to download media" ;;
          return_
      | Downloaded filename =>
          match validation up with
          | Invalid msg => reply (TValidation msg) ;; return_
          | Valid extension fileSize =>
              t ← dateNow;
              let fileName := "print_" +:+ userNumber +:+ "_" +:+ pretty t
                              +:+ "." +:+ extension in
              let filePath := "temp/" +:+ fileName in
              modify (with_files (fun fs => {[filePath]} ∪ fs)) ;;
              let fileAnalysis := analysis up in
              b ← get;
              let printJob :=
                {| id := pretty (now b);
                   fileName := fileName;
                   originalName :=
                     match filename with
                     | Some n => if String.eqb n "" then fileName else n
                     | None => fileName
                     end;
                   filePath := filePath;
                   extension := extension;
                   pageCount := a_pageCount fileAnalysis;
                   fileSize := fileSize;
                   chatId := chatId;
                   userNumber := userNumber;
                   status := pending;
                   copies := defaultCopies (config b);
                   printOptions :=
                     {| color := hasColor fileAnalysis; duplex := false;
                        paperSize := "A4"; quality := "normal" |};
                   createdAt := now b;
                   estimatedCost :=
                     calculatePrintCost (a_pageCount fileAnalysis) (hasColor fileAnalysis);
                   startedAt := None; completedAt := None; failedAt := None |} in
              queueSet (id printJob) printJob ;;
              b' ← get;
              reply (TConfirmation printJob (hasColor fileAnalysis) (size (printQueue b'))) ;;
              setStep chatId confirm_print (id printJob) ;;
              log "info" "Print job created"
          end
      end)
      (fun error =>
         emit ConsoleError ;;
         reply TFileError ;;
         log "error" "File processing error")).

(** *** Option negotiation *)

(** [showPrintOptions(message, printJobId)] *)
Definition showPrintOptions (message : Message) (printJobId : string) : M unit :=
  function (
    printJob ← queueGet printJobId;
    let chatId := from message in
    match printJob with
    | None => reply TJobNotFound ;; return_
    | Some printJob =>
        reply (TOptionsMenu (originalName printJob)) ;;
        setStep chatId set_options printJobId
    end).

(** [showUpdatedConfirmation(message, printJobId)] *)
Definition showUpdatedConfirmation (message : Message) (printJobId : string) : M unit :=
  function (
    printJob ← queueGet printJobId;
    let chatId := from message in
    match printJob with
    | None => reply TJobNotFound ;; return_
    | Some printJob =>
        b ← get;
        reply (TConfirmation printJob (color (printOptions printJob))
                 (size (printQueue b))) ;;
        setStep chatId confirm_print printJobId
    end).

(** [handleOptionsInput(message, response, printJobId)] *)
Definition handleOptionsInput (message : Message) (response : string)
    (printJobId : string) : M unit :=
  function (
    printJob ← queueGet printJobId;
    let chatId := from message in
    match printJob with
    | None => reply TJobNotFound ;; return_
    | Some printJob =>
        if String.eqb response "1" then
          reply TAskCopies ;;
          setStep chatId set_copies printJobId
        else if String.eqb response "2" then
          callUndefined "showQualityOptions"
        else if String.eqb response "3" then
          callUndefined "showPaperSizeOptions"
        else if String.eqb response "4" then
          let printJob' :=
            with_printOptions (toggle_duplex (printOptions printJob)) printJob in
          queueSet printJobId printJob' ;;
          reply (TDuplex (duplex (printOptions printJob'))) ;;
          showPrintOptions message printJobId
        else if String.eqb response "5" then
          showUpdatedConfirmation message printJobId
        else
          reply TInvalidChoice
    end).

(** [handleCopiesInput(message, response, printJobId)] *)
Definition handleCopiesInput (message : Message) (response : string)
    (printJobId : string) : M unit :=
  function (
    let copies := parseInt response in
    printJob ← queueGet printJobId;
    let chatId := from message in
    match printJob with
    | None => reply TJobNotFound ;; return_
    | Some printJob =>
        match copies with
        | None => reply TCopiesRange ;; return_
        | Some copies =>
            if (copies <? 1) || (10 <? copies) then
              reply TCopiesRange ;; return_
            else
              let printJob1 := with_copies copies printJob in
              let printJob2 :=
                with_estimatedCost
                  (calculatePrintCost (pageCount printJob1)
                     (color (printOptions printJob1)) * copies) printJob1 in
              queueSet printJobId printJob2 ;;
              reply (TCopiesChanged copies) ;;
              showPrintOptions message printJobId
        end
    end).

(** *** Execution engine *)

(** The [for] loop of [executePrintWithRetry], entered with [attempt] and
    [remaining = maxRetries + 1 - attempt] iterations left. *)
Fixpoint retryLoop (printJob : PrintJob) (maxRetries : nat)
    (remaining attempt : nat) : M bool :=
  match remaining with
  | O => mret false
  | S remaining' =>
      log "info" "Print attempt" ;;
      success ← executePrint printJob;
      if (success : bool) then (mret true : M bool)
      else
        (if (attempt <? maxRetries)%nat then sleep 2000 else mret ()) ;;
        retryLoop printJob maxRetries remaining' (S attempt)
  end.

(** [executePrintWithRetry(printJob, maxRetries)] *)
Definition executePrintWithRetry (printJob : PrintJob) (maxRetries : nat) : M bool :=
  retryLoop printJob maxRetries maxRetries 1.

(** [userStats.totalPrints++; userStats.totalPages += pageCount * copies] *)
Definition countPrint (printJob : PrintJob) (s : UserStat) : UserStat :=
  {| totalRequests := totalRequests s;
     totalPrints := totalPrints s + 1;
     totalPages := totalPages s + pageCount printJob * copies printJob;
     firstSeen := firstSeen s; lastSeen := lastSeen s |}.

(** [unshift] of the snapshot, then the cut to 100 entries.  The snapshot
    [{...printJob, completedAt}] is a shallow copy: its top-level fields are
    its own, its [printOptions] is the very object of the queued job, so a
    duplex toggle applied to that job afterwards ([handleOptionsInput],
    choice 4) shows in the history entry too.  The list here keeps the
    options as they were when the snapshot was taken, which is what the
    code holds until such a toggle; across one, only the top-level fields
    of a history entry [h] with the job's [id] are those of the code. *)
Definition pushHistory (snapshot : PrintJob) (h : list PrintJob) : list PrintJob :=
  let h' := snapshot :: h in
  if (100 <? length h')%nat then take 100 h' else h'.

(** [processPrintJob(message, printJobId)].  [printJob] is a reference to
    the object the queue holds, so each field assignment is written back to
    the queue under the same key. *)
Definition processPrintJob (message : Message) (printJobId : string) : M unit :=
  function (
    printJob ← queueGet printJobId;
    let chatId := from message in
    let userNumber := replace "@c.us" "" (from message) in
    match printJob with
    | None =>
        reply TJobNotFound ;;
        sessionsDelete chatId ;;
        return_
    | Some printJob =>
        try_catch (
          t ← dateNow;
          let printJob := with_startedAt t (with_status printing printJob) in
          queueSet printJobId printJob ;;
          reply TProcessing ;;
          printerOnline ← checkPrinter;
          (if negb printerOnline then
             queueSet printJobId (with_status failed printJob) ;;
             edit TPrinterOffline ;;
             log "error" "Printer offline during print job" ;;
             return_
           else mret ()) ;;
          edit TSending ;;
          success ← executePrintWithRetry printJob 3;
          if (success : bool) return M unit then
            t ← dateNow;
            let printJob := with_completedAt t (with_status completed printJob) in
            queueSet printJobId printJob ;;
            modify (with_userStats (alter (countPrint printJob) userNumber)) ;;
            modify (with_printHistory (pushHistory printJob)) ;;
            edit (TSuccess printJob) ;;
            log "info" "Print job completed successfully"
          else
            t ← dateNow;
            let printJob := with_failedAt t (with_status failed printJob) in
            queueSet printJobId printJob ;;
            edit TPrintFailed ;;
            log "error" "Print job failed after retries")
          (fun error =>
             emit ConsoleError ;;
             modify (with_printQueue (alter (with_status failed) printJobId)) ;;
             reply TSystemError ;;
             log "error" "Print processing system error") ;;
        sessionsDelete chatId ;;
        setTimeout (CleanupPrintJob printJobId) 300000
    end).

(** *** Conversation dispatch *)

(** [handleUserResponse(message)] *)
Definition handleUserResponse (message : Message) : M unit :=
  function (
    let chatId := from message in
    session ← sessionsGet chatId;
    let response := trim (toLowerCase (body message)) in
    match session with
    | None => return_
    | Some session =>
        match step session with
        | confirm_print =>
            if includes ["ya"; "y"; "yes"; "ok"] response then
              processPrintJob message (printJobId session)
            else if includes ["batal"; "cancel"; "no"; "tidak"] response then
              callUndefined "cancelPrintJob"
            else if includes ["opsi"; "option"; "setting"] response then
              showPrintOptions message (printJobId session)
            else
              reply TInvalidResponse
        | set_copies =>
            handleCopiesInput message response (printJobId session)
        | set_options =>
            handleOptionsInput message response (printJobId session)
        end
    end).

(** *** Reclamation *)

(** [cleanupPrintJob(printJobId)] *)
Definition cleanupPrintJob (printJobId : string) : M unit :=
  printJob ← queueGet printJobId;
  match printJob with
  | Some printJob =>
      try_catch (
        b ← get;
        (if bool_decide (filePath printJob ∈ files b) then
           (if unlinkOk w (filePath printJob)
            then modify (with_files (fun fs => fs ∖ {[filePath printJob]}))
            else throw FsError) ;;
           log "info" "Temp file deleted"
         else mret ()) ;;
        queueDelete printJobId ;;
        log "info" "Print job cleaned up")
        (fun error => log "error" "Cleanup error")
  | None => mret ()
  end.

(** A [for (... of ...)] loop over a snapshot of entries. *)
Fixpoint forEach {A} (l : list A) (f : A -> M unit) : M unit :=
  match l with
  | [] => mret ()
  | x :: l' => f x ;; forEach l' f
  end.

(** The guard of [cleanupOldPrintJobs]. *)
Definition sweepable (t : Z) (job : PrintJob) : bool :=
  let maxAge := 60 * 60 * 1000 in
  (maxAge <? t - createdAt job)
  && (bool_decide (status job = completed) || bool_decide (status job = failed)).

(** The body of the loop of [cleanupOldPrintJobs], entered with the clock
    value [t] read before the loop. *)
Definition visit (t : Z) : string * PrintJob -> M unit :=
  fun '(jobId, job) =>
    if sweepable t job then cleanupPrintJob jobId else mret ().

(** [cleanupOldPrintJobs()].  The queue is walked entry by entry (in the
    order of the map's listing); the only entry a step removes is the one it
    is visiting. *)
Definition cleanupOldPrintJobs : M unit :=
  b ← get;
  let t := now b in
  let entries := map_to_list (printQueue b) in
  forEach entries (visit t) ;;
  let cleaned := length (List.filter (fun '(_, job) => sweepable t job) entries) in
  if (0 <? cleaned)%nat then log "info" "Old print jobs cleaned" else mret ().

(** A timer that comes due runs its callback. *)
Definition fire (t : Timer) : M unit :=
  match callback t with
  | CleanupPrintJob printJobId => cleanupPrintJob printJobId
  end.

End Handlers.

End Bot.

(** ** Reading a trace *)

Module Schedule.

Import Bot.

(** The timing skeleton of a run: print attempts and the waits between them. *)
Inductive Tick := Attempt | Wait (ms : Z).

Fixpoint schedule (tr : list Event) : list Tick :=
  match tr with
  | [] => []
  | ExecutePrint _ :: tr' => Attempt :: schedule tr'
  | Sleep ms :: tr' => Wait ms :: schedule tr'
  | _ :: tr' => schedule tr'
  end.

(** [k] attempts with a two-second wait between each two and none at the end. *)
Definition plan (k : nat) : list Tick :=
  match k with
  | O => []
  | S k' => Attempt :: concat (replicate k' [Wait 2000; Attempt])
  end.

(** The first attempt number from [attempt] on, among [remaining] attempts,
    at which the printer answers success. *)
Fixpoint firstFrom (ok : nat -> bool) (remaining attempt : nat) : option nat :=
  match remaining with
  | O => None
  | S remaining' =>
      if ok attempt then Some attempt else firstFrom ok remaining' (S attempt)
  end.

Definition firstSuccess (ok : nat -> bool) (maxRetries : nat) : option nat :=
  firstFrom ok maxRetries 1.

(** Attempts made by the loop entered at [attempt] with [remaining]
    iterations left. *)
Definition attemptsFrom (ok : nat -> bool) (remaining attempt : nat) : nat :=
  match firstFrom ok remaining attempt with
  | Some k => (k + 1 - attempt)%nat
  | None => remaining
  end.

(** How often the health check ran. *)
Fixpoint count_checks (tr : list Event) : nat :=
  match tr with
  | [] => 0
  | CheckPrinter :: tr' => S (count_checks tr')
  | _ :: tr' => count_checks tr'
  end.

End Schedule.

(** ** Concrete conversations *)

Module Scenario.

Import Bot.

Local Open Scope string_scope.

(** A printer that is online and prints at once, a chat that delivers. *)
Definition calm : World :=
  {| sendOk := fun _ => true; checkPrinterOnline := true;
     executePrintOk := fun _ => true; unlinkOk := fun _ => true |}.

(** The same with the printer reported offline. *)
Definition offline : World :=
  {| sendOk := fun _ => true; checkPrinterOnline := false;
     executePrintOk := fun _ => true; unlinkOk := fun _ => true |}.

(** Online, but every print attempt fails. *)
Definition jammed : World :=
  {| sendOk := fun _ => true; checkPrinterOnline := true;
     executePrintOk := fun _ => false; unlinkOk := fun _ => true |}.

(** Online, the third attempt goes through. *)
Definition thirdTime : World :=
  {| sendOk := fun _ => true; checkPrinterOnline := true;
     executePrintOk := fun n => (3 <=? n)%nat; unlinkOk := fun _ => true |}.

Definition sender : string := "6281@c.us".

Definition says (text : string) : Message := {| from := sender; body := text |}.

(** Three black-and-white pages. *)
Definition threePages : Upload :=
  {| download := Downloaded (Some "a.pdf");
     validation := Valid "pdf" 1000;
     analysis := {| a_pageCount := 3; hasColor := false |} |}.

(** A configuration file that asks for two copies by default. *)
Definition twoCopies : Config := {| defaultCopies := 2; maxRequestsPerHour := 50 |}.

(** The bot after one upload at clock 1000: job ["1000"], session at
    [confirm_print]. *)
Definition uploaded (cfg : Config) : Bot :=
  bot (exec (handleFileMessage calm (says "") threePages) (newBot cfg 1000)).2.

(** The job that upload creates under the fallback configuration. *)
Definition job1000 : PrintJob :=
  {| id := "1000"; fileName := "print_6281_1000.pdf"; originalName := "a.pdf";
     filePath := "temp/print_6281_1000.pdf"; extension := "pdf"; pageCount := 3;
     fileSize := 1000; chatId := sender; userNumber := "6281"; status := pending;
     copies := 1;
     printOptions := {| color := false; duplex := false;
                        paperSize := "A4"; quality := "normal" |};
     createdAt := 1000; estimatedCost := 1500;
     startedAt := None; completedAt := None; failedAt := None |}.

(** The bot while that job is at the printer. *)
Definition midPrint : Bot :=
  with_printQueue <["1000" := with_startedAt 1000 (with_status printing job1000)]>
    (uploaded defaultConfig).

(** The sender confirms while the printer is offline. *)
Definition refused : Bot :=
  bot (exec (handleUserResponse offline (says "YA")) (uploaded defaultConfig)).2.

(** ... then opens the options menu and asks for the copies prompt. *)
Definition reopened : Bot :=
  let b1 := bot (exec (handleUserResponse calm (says "opsi")) refused).2 in
  bot (exec (handleUserResponse calm (says "1")) b1).2.

(** The upload is never confirmed; two hours later the clock reads [t]. *)
Definition abandoned : Bot :=
  with_now (fun _ => 1000 + 2 * 60 * 60 * 1000) (uploaded defaultConfig).

(** A session left behind after its job is gone from the queue. *)
Definition dangling (st : Step) : Bot :=
  with_userSessions
    <[sender := {| step := st; printJobId := "1000"; lastActivity := 1000 |}]>
    (newBot defaultConfig 2000).

End Scenario.

(** ** User statistics and the message gate *)

Module Dispatch.

Import Bot JsString.

Definition with_rateLimit (f : gmap string (list Z) -> gmap string (list Z)) (b : Bot) : Bot :=
  {| config := config b; printQueue := printQueue b; userSessions := userSessions b;
     userStats := userStats b; rateLimit := f (rateLimit b); printHistory := printHistory b;
     timers := timers b; files := files b; now := now b |}.

(** [stats.totalRequests++; stats.lastSeen = Date.now()] *)
Definition countRequest (t : Z) (s : UserStat) : UserStat :=
  {| totalRequests := totalRequests s + 1;
     totalPrints := totalPrints s;
     totalPages := totalPages s;
     firstSeen := firstSeen s;
     lastSeen := t |}.

(** [updateUserStats(userNumber)] with [Date.now()] read as [t]. *)
Definition updateUserStats (t : Z) (userNumber : string)
    (stats : gmap string UserStat) : gmap string UserStat :=
  let stats0 :=
    match stats !! userNumber with
    | Some _ => stats
    | None =>
        <[userNumber := {| totalRequests := 0; totalPrints := 0; totalPages := 0;
                           firstSeen := t; lastSeen := t |}]> stats
    end in
  alter (countRequest t) userNumber stats0.

(** [updateUserStats] once for each clock value of a list, in order. *)
Definition updateUserStatsAll (ts : list Z) (userNumber : string)
    (stats : gmap string UserStat) : gmap string UserStat :=
  foldl (fun st t => updateUserStats t userNumber st) stats ts.

(** [s.includes(needle)] on strings. *)
Fixpoint str_includes (needle s : string) : bool :=
  String.prefix needle s
  || match s with
     | EmptyString => false
     | String _ s' => str_includes needle s'
     end.

(** The access settings of [config.json] that [handleMessage] reads, with
    the admin set built by the constructor. *)
Record Access := mkAccess {
  enableRateLimit : bool;
  allowedUsers : list string;
  adminNumbers : gset string
}.

(** An inbound message as [handleMessage] reads it. *)
Record Inbound := mkInbound {
  message : Message;
  hasMedia : bool;
  mentionedIds : list string
}.

(** [isAdmin(userNumber)] *)
Definition isAdmin (acc : Access) (userNumber : string) : bool :=
  bool_decide (userNumber ∈ adminNumbers acc).

(** Where [handleMessage] hands the message on. *)
Inductive Route :=
| AdminCommand (messageBody : string)   (* handleAdminCommand(message, messageBody) *)
| Command (messageBody : string)        (* handleCommand(message, messageBody) *)
| FileMessage                           (* handleFileMessage(message) *)
| UserResponse                          (* handleUserResponse(message) *)
| HelpMessage.                          (* sendHelpMessage(message) *)

(** How [handleMessage] ends before any hand-over: silently for a group
    message that does not mention the bot, with the rate-limit reply, or
    with the no-access reply. *)
Inductive Verdict :=
| Ignored
| RateLimited
| Unauthorized
| Routed (r : Route).

(** [handleMessage(message)] up to the hand-over: the verdict and the bot as
    the gate leaves it.  [botId] is [this.client.info.wid._serialized]. *)
Definition handleMessage (acc : Access) (botId : string) (inb : Inbound)
    (b : Bot) : Verdict * Bot :=
  let chatId := from (message inb) in
  let isGroup := str_includes "@g.us" chatId in
  let userNumber := replace "@c.us" "" chatId in
  if isGroup && negb (includes (mentionedIds inb) botId) then (Ignored, b)
  else
    let '(granted, b1) :=
      if enableRateLimit acc && negb (isAdmin acc userNumber) then
        let '(ok, rl) :=
          RateLimiter.checkRateLimit (config b) (now b) userNumber (rateLimit b) in
        (ok, with_rateLimit (fun _ => rl) b)
      else (true, b) in
    if negb granted then (RateLimited, b1)
    else if (0 <? length (allowedUsers acc))%nat
            && negb (isAdmin acc userNumber)
            && negb (includes (allowedUsers acc) userNumber)
    then (Unauthorized, b1)
    else
      let b2 := with_userStats (updateUserStats (now b) userNumber) b1 in
      let messageBody := trim (toLowerCase (body (message inb))) in
      if isAdmin acc userNumber && String.prefix "/admin" messageBody
      then (Routed (AdminCommand messageBody), b2)
      else if String.prefix "/" messageBody then (Routed (Command messageBody), b2)
      else if hasMedia inb then (Routed FileMessage, b2)
      else if bool_decide (is_Some (userSessions b2 !! chatId))
      then (Routed UserResponse, b2)
      else (Routed HelpMessage, b2).

(** What a [case] of [handleCommand] amounts to. *)
Inductive CommandOutcome :=
| Calls (method : string)     (* a method the class defines is awaited *)
| Throws (e : Error)          (* the call throws *)
| Pong                        (* the inline ping reply and its edit *)
| UnknownCommand.             (* 'Command tidak dikenal...' *)

(** [await this.name(...)] *)
Definition invoke (name : string) : CommandOutcome :=
  if bool_decide (name ∈ methods) then Calls name
  else Throws (TypeError ("this." +:+ name +:+ " is not a function")).

(** The [switch] of [handleCommand(message, command)]. *)
Definition handleCommand (command : string) : CommandOutcome :=
  if String.eqb command "/start" || String.eqb command "/help" then invoke "sendHelpMessage"
  else if String.eqb command "/status" then invoke "sendPrintStatus"
  else if String.eqb command "/queue" then invoke "sendQueueStatus"
  else if String.eqb command "/cancel" then invoke "cancelPrintJob"
  else if String.eqb command "/settings" then invoke "sendSettingsInfo"
  else if String.eqb command "/history" then invoke "sendUserHistory"
  else if String.eqb command "/formats" then invoke "sendSupportedFormats"
  else if String.eqb command "/ping" then Pong
  else UnknownCommand.

End Dispatch.

(** ** Sequences of handler runs *)

Module Lifecycle.

Import Bot.

(** What [userSessions.set(chatId, { step, printJobId, lastActivity })]
    does to the bot. *)
Definition moved (chat : string) (st : Step) (jobId : string) (t : Z)
    (b : Bot) : Bot :=
  with_userSessions
    <[chat := {| step := st; printJobId := jobId; lastActivity := t |}]> b.

(** The bot without its history.  [handleOptionsInput] assigns to a field
    of the [printOptions] object of a queued job, an object that the history
    snapshots of that job share ([pushHistory]); two bots are compared
    through [forgetHistory] where that assignment lies between them. *)
Definition forgetHistory (b : Bot) : Bot := with_printHistory (fun _ => []) b.

(** A message of chat [chat]. *)
Definition said (chat text : string) : Message := {| from := chat; body := text |}.

(** The bot after the sender's messages have been answered one after the
    other by [handleUserResponse], each run finishing before the next. *)
Definition converse (w : World) (msgs : list Message) (b : Bot) : Bot :=
  foldl (fun b0 m => bot (exec (handleUserResponse w m) b0).2) b msgs.

End Lifecycle.

Module Deferred.

Import Bot.

(** The [i]-th pending timer comes due: its callback runs and the timer is
    spent. *)
Definition runTimer (w : World) (i : nat) : M unit :=
  b ← get;
  match timers b !! i with
  | Some t => modify (with_timers (delete i)) ;; fire w t
  | None => mret ()
  end.

End Deferred.

(** ** The session sweep *)

Module Sweeper.

Import Bot.

(** The test of [cleanupOldSessions]: idle for more than 15 minutes. *)
Definition stale (t : Z) (session : Session) : bool :=
  let timeout := 15 * 60 * 1000 in
  timeout <? t - lastActivity session.

(** The body of the loop of [cleanupOldSessions]. *)
Definition visitSession (t : Z) : string * Session -> M unit :=
  fun '(chatId, session) =>
    if stale t session then sessionsDelete chatId else mret ().

(** [cleanupOldSessions()] *)
Definition cleanupOldSessions : M unit :=
  b ← get;
  let t := now b in
  let entries := map_to_list (userSessions b) in
  forEach entries (visitSession t) ;;
  let cleaned := length (List.filter (fun '(_, session) => stale t session) entries) in
  if (0 <? cleaned)%nat then log "info" "Old sessions cleaned" else mret ().

End Sweeper.

(** ** Reachable states *)

Module Reach.

Import Bot.

(** One thing that happens to the bot: the gate of [handleMessage] lets a
    message pass or not, a handler runs to its end, a sweep runs, a timer
    comes due, or time passes.  Each handler run is taken as a whole: what
    other messages do while a handler waits is not followed here. *)
Inductive step : Bot -> Bot -> Prop :=
| step_gate acc botId inb b :
    step b (Dispatch.handleMessage acc botId inb b).2
| step_upload w msg up b :
    step b (bot (exec (handleFileMessage w msg up) b).2)
| step_response w msg b :
    step b (bot (exec (handleUserResponse w msg) b).2)
| step_sweep_jobs w b :
    step b (bot (exec (cleanupOldPrintJobs w) b).2)
| step_sweep_sessions b :
    step b (bot (exec Sweeper.cleanupOldSessions b).2)
| step_timer w i b :
    step b (bot (exec (Deferred.runTimer w i) b).2)
| step_tick d b :
    0 ≤ d → step b (with_now (Z.add d) b).

(** The bots that a freshly constructed bot can become. *)
Definition reachable (b : Bot) : Prop :=
  ∃ cfg t0, rtc step (newBot cfg t0) b.

(** The per-copy cost of a job. *)
Definition unitCost (j : PrintJob) : Z :=
  calculatePrintCost (pageCount j) (color (printOptions j)).

(** What holds of every job in the queue, stored under key [k]. *)
Definition job_ok (k : string) (j : PrintJob) : Prop :=
  id j = k
  ∧ paperSize (printOptions j) = "A4"%string
  ∧ quality (printOptions j) = "normal"%string
  ∧ (estimatedCost j = unitCost j ∨ estimatedCost j = unitCost j * copies j)
  ∧ (status j = pending ↔ startedAt j = None)
  ∧ (status j = pending → completedAt j = None ∧ failedAt j = None)
  ∧ (status j = completed → is_Some (completedAt j)).

(** What holds of every snapshot in the history. *)
Definition snapshot_ok (j : PrintJob) : Prop :=
  status j = completed ∧ is_Some (completedAt j) ∧ is_Some (startedAt j).

Definition invariant (b : Bot) : Prop :=
  map_Forall job_ok (printQueue b)
  ∧ Forall snapshot_ok (printHistory b)
  ∧ (length (printHistory b) ≤ 100)%nat.

End Reach.

(** ** The print command and the history views *)

Module Views.

Import Bot.

(** The double-quote character. *)
Definition dquote : string := String (ascii_of_nat 34) EmptyString.

(** [lprOptions.join(' ')] *)
Fixpoint join (sep : string) (l : list string) : string :=
  match l with
  | [] => ""
  | [x] => x
  | x :: l' => x +:+ sep +:+ join sep l'
  end.

(** The command line that [executePrint(printJob)] hands to [exec], for
    the value of [process.platform] and the configured printer name. *)
Definition printCommand (platform printerName : string) (printJob : PrintJob) : string :=
  let options := printOptions printJob in
  if String.eqb platform "win32" then
    let psCommand := "Start-Process -FilePath '" +:+ filePath printJob
                     +:+ "' -Verb Print -Wait" in
    "powershell -Command " +:+ dquote +:+ psCommand +:+ dquote
  else if String.eqb platform "darwin" then
    let lprOptions :=
      ["-P " +:+ printerName; "-# " +:+ pretty (copies printJob)]
      ++ (if duplex options then ["-o sides=two-sided-long-edge"] else [])
      ++ (if negb (String.eqb (paperSize options) "A4")
          then ["-o media=" +:+ paperSize options] else []) in
    "lpr " +:+ join " " lprOptions +:+ " " +:+ dquote +:+ filePath printJob +:+ dquote
  else
    let lprOptions :=
      ["-P " +:+ printerName; "-# " +:+ pretty (copies printJob)]
      ++ (if duplex options then ["-o sides=two-sided-long-edge"] else [])
      ++ (if String.eqb (quality options) "draft" then ["-o print-quality=3"] else [])
      ++ (if String.eqb (quality options) "high" then ["-o print-quality=5"] else []) in
    "lpr " +:+ join " " lprOptions +:+ " " +:+ dquote +:+ filePath printJob +:+ dquote.

(** The entries [sendUserHistory(message, userNumber)] lists:
    [printHistory.filter(job => job.userNumber === userNumber).slice(0, 10)]. *)
Definition userHistory (u : string) (h : list PrintJob) : list PrintJob :=
  take 10 (filter (fun job => userNumber job = u) h).

(** The counters of [sendBotStats]. *)
Record BotStats := mkBotStats {
  totalJobs : nat;
  completedJobs : nat;
  failedJobs : nat;
  totalPagesPrinted : Z;
  activeUsers : nat;
  activeQueue : nat
}.

Definition botStats (b : Bot) : BotStats :=
  {| totalJobs := length (printHistory b) + size (printQueue b);
     completedJobs :=
       length (List.filter (fun job => bool_decide (status job = completed))
                 (printHistory b));
     failedJobs :=
       length (List.filter (fun job => bool_decide (status job = failed))
                 (printHistory b));
     totalPagesPrinted :=
       fold_left (fun sum job => sum + pageCount job * copies job) (printHistory b) 0;
     activeUsers := size (userStats b);
     activeQueue := size (printQueue b) |}.

End Views.

(** * Properties *)

(** ** JavaScript built-ins *)

Example parseInt_decimal : JsString.parseInt "7" = Some 7.
Proof. reflexivity. Qed.

Example parseInt_trailing_text : JsString.parseInt " -12abc" = Some (-12).
Proof. reflexivity. Qed.

Example parseInt_hex : JsString.parseInt "0xa" = Some 10.
Proof. reflexivity. Qed.

Example parseInt_NaN : JsString.parseInt "abc" = None.
Proof. reflexivity. Qed.

Example trim_toLowerCase : JsString.trim (JsString.toLowerCase "  BaTaL  ") = "batal"%string.
Proof. reflexivity. Qed.

(** U+00A0 after the word is white space to [trim]. *)
Example trim_no_break_space :
  JsString.trim
    (JsString.toLowerCase
       ("YA" +:+ String (ascii_of_nat 194) (String (ascii_of_nat 160) EmptyString)))
  = "ya"%string.
Proof. vm_compute. reflexivity. Qed.

(** U+FEFF before and U+3000 after. *)
Example trim_three_byte_space :
  JsString.trim
    (String (ascii_of_nat 239) (String (ascii_of_nat 187) (String (ascii_of_nat 191)
       (" /help"
        +:+ String (ascii_of_nat 227) (String (ascii_of_nat 128)
              (String (ascii_of_nat 128) EmptyString))))))
  = "/help"%string.
Proof. vm_compute. reflexivity. Qed.

(** U+212A KELVIN SIGN lower-cases to the letter [k]. *)
Example toLowerCase_kelvin :
  JsString.toLowerCase
    ("O" +:+ String (ascii_of_nat 226) (String (ascii_of_nat 132)
               (String (ascii_of_nat 170) EmptyString)))
  = "ok"%string.
Proof. vm_compute. reflexivity. Qed.

Example ascii_only_word : JsString.ascii_only " Batal " = true.
Proof. reflexivity. Qed.

Example ascii_only_no_break_space :
  JsString.ascii_only
    ("YA" +:+ String (ascii_of_nat 194) (String (ascii_of_nat 160) EmptyString))
  = false.
Proof. vm_compute. reflexivity. Qed.

Example replace_suffix : JsString.replace "@c.us" "" "6281@c.us" = "6281"%string.
Proof. reflexivity. Qed.

Example replace_absent : JsString.replace "@c.us" "" "6281@g.us" = "6281@g.us"%string.
Proof. reflexivity. Qed.

(** ** Rate limiter *)

Module RateLimiterFacts.

Import RateLimiter.

(** A filter with a stronger test keeps no more elements. *)
Lemma filter_length_mono (P Q : Z -> Prop) `{!∀ x, Decision (P x)} `{!∀ x, Decision (Q x)}
    (l : list Z) :
  (∀ x, P x → Q x) → (length (filter P l) ≤ length (filter Q l))%nat.
Proof.
  intros HPQ. induction l as [|x l IH]; [done|].
  rewrite !filter_cons. destruct (decide (P x)) as [HP|HP].
  - rewrite decide_True by auto. simpl. lia.
  - destruct (decide (Q x)); simpl; lia.
Qed.

(** Purging twice with a later clock is purging once. *)
Lemma recent_recent (c d : Z) (l : list Z) :
  c ≤ d → recent d (recent c l) = recent d l.
Proof.
  intros Hcd. unfold recent. induction l as [|x l IH]; [done|].
  rewrite !filter_cons. destruct (decide (c < x)) as [H1|H1].
  - rewrite filter_cons. destruct (decide (d < x)); [by rewrite IH | exact IH].
  - rewrite decide_False by lia. exact IH.
Qed.

(** What one call does to the caller's window and to everybody else's. *)
Lemma checkRateLimit_spec cfg now u rl :
  let kept := recent (now - hour) (default [] (rl !! u)) in
  checkRateLimit cfg now u rl =
    if (maxRequestsPerHour cfg <=? length kept)%nat
    then (false, <[u := kept]> rl)
    else (true, <[u := kept ++ [now]]> rl).
Proof.
  unfold checkRateLimit. destruct (rl !! u) as [l|] eqn:Hl; simpl.
  - rewrite Hl. simpl. destruct (_ <=? _)%nat; [done|].
    by rewrite insert_insert_eq.
  - rewrite lookup_insert_eq. simpl.
    destruct (_ <=? _)%nat; by rewrite !insert_insert_eq.
Qed.

Lemma inv_weaken cfg u last last' prev rl :
  last ≤ last' → inv cfg u last prev rl → inv cfg u last' prev rl.
Proof.
  intros Hle [[c [Hc Hs]] Hp Hb]. split; [| |done].
  - exists c. split; [lia|done].
  - eapply Forall_impl; [exact Hp|]. simpl. intros. lia.
Qed.

Lemma inv_step cfg u last prev rl v now b rl' :
  last ≤ now → inv cfg u last prev rl →
  checkRateLimit cfg now v rl = (b, rl') →
  inv cfg u now (if b && bool_decide (v = u) then prev ++ [now] else prev) rl'.
Proof.
  intros Hle Hinv. rewrite checkRateLimit_spec. simpl.
  destruct (decide (v = u)) as [->|Hne].
  - rewrite bool_decide_eq_true_2 by done. rewrite andb_true_r.
    destruct Hinv as [[c [Hc Hs]] Hp Hb].
    rewrite Hs, recent_recent by lia.
    destruct (_ <=? _)%nat eqn:Hcap; intros [= <- <-].
    + split; [| |done].
      * exists now. split; [lia|]. by rewrite lookup_insert_eq.
      * eapply Forall_impl; [exact Hp|]. simpl. intros. lia.
    + apply Nat.leb_gt in Hcap. split.
      * exists now. split; [lia|]. rewrite lookup_insert_eq. simpl.
        unfold recent. rewrite filter_app. f_equal.
        rewrite filter_cons, decide_True by (unfold hour; lia). done.
      * apply Forall_app. split.
        -- eapply Forall_impl; [exact Hp|]. simpl. intros. lia.
        -- repeat constructor. lia.
      * intros t. unfold in_window. rewrite filter_app, length_app.
        destruct (decide (now ≤ t)) as [Ht|Ht].
        -- assert (length (filter (λ s : Z, (t - hour < s ∧ s ≤ t)%Z) prev)
                   ≤ length (recent (now - hour) prev))%nat as Hlen.
           { apply filter_length_mono. intros x. lia. }
           rewrite filter_cons. destruct (decide _); simpl; lia.
        -- rewrite filter_cons, decide_False by lia. simpl.
           specialize (Hb t). unfold in_window in Hb. lia.
  - rewrite bool_decide_eq_false_2 by done. rewrite andb_false_r.
    apply (inv_weaken _ _ _ now) in Hinv; [|done].
    destruct Hinv as [[c [Hc Hs]] Hp Hb].
    destruct (_ <=? _)%nat; intros [= <- <-]; (split; [| done | done]);
      exists c; (split; [done|]); by rewrite lookup_insert_ne.
Qed.

(** The invariant carries the bound through a whole run. *)
Lemma serve_bound cfg u calls : ∀ last prev rl,
  clock_monotone last calls → inv cfg u last prev rl →
  ∀ t, (length (in_window t (prev ++ granted u calls (serve cfg calls rl).1))
        ≤ maxRequestsPerHour cfg)%nat.
Proof.
  induction calls as [|[v now] calls IH]; intros last prev rl Hmono Hinv t.
  - simpl. rewrite app_nil_r. apply Hinv.
  - simpl in Hmono. destruct Hmono as [Hle Hmono]. simpl.
    destruct (checkRateLimit cfg now v rl) as [b rl1] eqn:Hstep.
    destruct (serve cfg calls rl1) as [bs rl2] eqn:Hrest. simpl.
    pose proof (inv_step _ _ _ _ _ _ _ _ _ Hle Hinv Hstep) as Hinv'.
    specialize (IH now _ rl1 Hmono Hinv' t). rewrite Hrest in IH. simpl in IH.
    destruct (b && bool_decide (v = u)); [|done].
    by rewrite <- app_assoc in IH.
Qed.

Lemma inv_init cfg u last : inv cfg u last [] ∅.
Proof.
  split; [|constructor|intros; simpl; lia].
  exists last. split; [lia|]. by rewrite lookup_empty.
Qed.

End RateLimiterFacts.

(** C8. Starting from the empty map of the constructor and with a clock that
    does not run backwards, the calls of one sender answered [true] never
    number more than [maxRequestsPerHour] inside a trailing one-hour window
    [(t - hour, t]], whatever [t] and whatever the other senders do; and a
    call answered [false] leaves the map as it was except that the sender's
    own list is purged of stamps older than one hour, so no stamp is added. *)
Theorem checkRateLimit_window_cap (cfg : Config) (t0 : Z)
    (calls : list (string * Z)) (u : string) (t : Z) :
  RateLimiter.clock_monotone t0 calls →
  (length (RateLimiter.in_window t
     (RateLimiter.granted u calls (RateLimiter.serve cfg calls ∅).1))
   ≤ maxRequestsPerHour cfg)%nat
  ∧ ∀ now rl rl',
      RateLimiter.checkRateLimit cfg now u rl = (false, rl') →
      rl' = <[u := RateLimiter.recent (now - RateLimiter.hour) (default [] (rl !! u))]> rl.
Proof.
  intros Hmono. split.
  - apply (RateLimiterFacts.serve_bound cfg u calls t0 [] ∅ Hmono
             (RateLimiterFacts.inv_init cfg u t0) t).
  - intros now rl rl'. rewrite RateLimiterFacts.checkRateLimit_spec. simpl.
    destruct (_ <=? _)%nat; congruence.
Qed.

(** Three calls in one hour under a cap of two: the third is refused, and a
    fourth call more than an hour after the first is let in again. *)
Lemma checkRateLimit_window_cap_witness :
  let cfg := {| defaultCopies := 1; maxRequestsPerHour := 2 |} in
  let calls := [("6281", 1000); ("6281", 2000); ("6281", 3000); ("6281", 3601500)]%string in
  RateLimiter.clock_monotone 0 calls
  ∧ (RateLimiter.serve cfg calls ∅).1 = [true; true; false; true]
  ∧ (length (RateLimiter.in_window 3601500
       (RateLimiter.granted "6281" calls (RateLimiter.serve cfg calls ∅).1)) ≤ 2)%nat.
Proof.
  intros cfg calls.
  assert (Hmono : RateLimiter.clock_monotone 0 calls) by (simpl; lia).
  split; [exact Hmono|]. split; [vm_compute; reflexivity|].
  exact (proj1 (checkRateLimit_window_cap cfg 0 calls "6281" 3601500 Hmono)).
Defined.

(** ** The bot *)

Module BotFacts.

Import Bot Schedule.

(** Runs a handler symbolically: unfolds the monad, rewrites with the known
    lookups and splits on each answer of the world as it is asked for. *)
Ltac crunch :=
  repeat (cbn -[lookup insert delete alter size includes];
    match goal with
    | H : ?x = _ |- context [?x] => rewrite H
    | |- context [<[?k := ?v]> ?m !! ?k] => rewrite (lookup_insert_eq m k v)
    | |- context [alter ?f ?k ?m !! ?k] => rewrite (lookup_alter_eq f m k)
    | |- context [sendOk ?w ?n] => destruct (sendOk w n) eqn:?
    | |- context [checkPrinterOnline ?w] => destruct (checkPrinterOnline w) eqn:?
    | |- context [executePrintOk ?w ?n] => destruct (executePrintOk w n) eqn:?
    end); cbn -[lookup insert delete alter size includes].

(** The three word lists of [confirm_print] do not overlap. *)
Lemma includes_cases (l : list string) (x : string) :
  includes l x = true → Exists (fun y => x = y) l.
Proof.
  unfold includes. induction l as [|y l IH]; simpl; [done|].
  intros [H|H]%orb_true_iff.
  - apply String.eqb_eq in H. by left.
  - right. auto.
Qed.

Lemma cancel_not_yes (r : string) :
  includes ["batal"; "cancel"; "no"; "tidak"]%string r = true →
  includes ["ya"; "y"; "yes"; "ok"]%string r = false.
Proof.
  intros H%includes_cases.
  repeat (apply Exists_cons in H as [->|H]; [reflexivity|]).
  by apply Exists_nil in H.
Qed.

Lemma opsi_not_yes_nor_cancel (r : string) :
  includes ["opsi"; "option"; "setting"]%string r = true →
  includes ["ya"; "y"; "yes"; "ok"]%string r = false
  ∧ includes ["batal"; "cancel"; "no"; "tidak"]%string r = false.
Proof.
  intros H%includes_cases.
  repeat (apply Exists_cons in H as [->|H]; [split; reflexivity|]).
  by apply Exists_nil in H.
Qed.

(** The class body has no method of these three names. *)
Lemma undefined_methods :
  ("cancelPrintJob"%string ∉ methods)
  ∧ ("showQualityOptions"%string ∉ methods)
  ∧ ("showPaperSizeOptions"%string ∉ methods).
Proof.
  repeat split; apply (bool_decide_unpack _); vm_compute; exact I.
Qed.

(** [processPrintJob] on an id the queue does not hold: the one place that
    drops the session of a missing job. *)
Lemma processPrintJob_missing_job w b msg id :
  printQueue b !! id = None → sendOk w 0 = true →
  exec (processPrintJob w msg id) b =
    (Normal (), {| bot := with_userSessions (delete (from msg)) b;
                   trace := [Reply TJobNotFound] |}).
Proof. intros Hq Hs. unfold exec, processPrintJob, function. by crunch. Qed.

(** After a valid copies input the cost is pages times copies times rate. *)
Lemma handleCopiesInput_cost w b msg response id job n :
  printQueue b !! id = Some job → JsString.parseInt response = Some n →
  1 ≤ n ≤ 10 →
  ∃ job', printQueue (bot (exec (handleCopiesInput w msg response id) b).2) !! id
            = Some job'
    ∧ copies job' = n
    ∧ estimatedCost job' =
        pageCount job' * copies job'
        * (if color (printOptions job') then 2000 else 500).
Proof.
  intros Hq Hp Hn. unfold exec, handleCopiesInput, function.
  assert (Hr : (n <? 1) || (10 <? n) = false)
    by (apply orb_false_iff; split; apply Z.ltb_ge; lia).
  eexists. split.
  - crunch; rewrite ?lookup_insert_eq; reflexivity.
  - cbn. split; [done|]. unfold calculatePrintCost.
    destruct (color (printOptions job)); lia.
Qed.

End BotFacts.

Import Bot Schedule Scenario BotFacts.

(** ** Cost of a job *)

(** C1. What [handleFileMessage] really stores: once the upload is
    downloaded and valid, the new job carries [copies = defaultCopies] but
    an [estimatedCost] of pages times rate, with no copies factor.  So the
    cost differs from pages times copies times rate as soon as the configured
    default is not one copy (and the file has a page). *)
Theorem handleFileMessage_cost_omits_copies (w : World) (b : Bot)
    (msg : Message) (up : Upload) (filename : option string)
    (extension : string) (fileSize : Z) :
  download up = Downloaded filename →
  validation up = Valid extension fileSize →
  sendOk w 0 = true →
  ∃ job,
    printQueue (bot (exec (handleFileMessage w msg up) b).2) !! pretty (now b)
      = Some job
    ∧ status job = pending
    ∧ pageCount job = a_pageCount (analysis up)
    ∧ color (printOptions job) = hasColor (analysis up)
    ∧ copies job = defaultCopies (config b)
    ∧ estimatedCost job
        = pageCount job * (if color (printOptions job) then 2000 else 500)
    ∧ (pageCount job ≠ 0 → copies job ≠ 1 →
       estimatedCost job
         ≠ pageCount job * copies job
           * (if color (printOptions job) then 2000 else 500)).
Proof.
  intros Hd Hv Hs. eexists. split.
  - unfold exec, handleFileMessage, function. crunch; reflexivity.
  - cbn. repeat split. unfold calculatePrintCost.
    intros Hp Hc. destruct (hasColor (analysis up)); nia.
Qed.

(** Three black-and-white pages under [defaultCopies = 2]: the job is stored
    with cost 1500, not 3000. *)
Lemma handleFileMessage_cost_omits_copies_witness :
  ∃ job,
    printQueue (bot (exec (handleFileMessage calm (says "") threePages)
                       (newBot twoCopies 1000)).2) !! pretty 1000 = Some job
    ∧ pageCount job = 3 ∧ copies job = 2 ∧ color (printOptions job) = false
    ∧ estimatedCost job = 1500
    ∧ estimatedCost job ≠ pageCount job * copies job * 500.
Proof.
  destruct (handleFileMessage_cost_omits_copies calm (newBot twoCopies 1000)
              (says "") threePages (Some "a.pdf"%string) "pdf"%string 1000
              eq_refl eq_refl eq_refl)
    as (job & Hq & _ & Hp & Hc & Hn & Hcost & Hne).
  exists job. cbn in Hp, Hc, Hn. rewrite Hc in Hcost, Hne. rewrite Hp, Hn in *.
  repeat split; try assumption; try lia.
Defined.

(** ** Option mutations and the job status *)

(** C2, refuted as stated.  After a confirmation that met an offline printer
    the job is [failed] and the session is still there; the sender walks to
    the copies prompt and types 7: the handler ends normally and the failed
    job now has 7 copies and a new cost. *)
Lemma mutation_of_failed_job_counterexample :
  ∃ job job',
    printQueue reopened !! "1000"%string = Some job
    ∧ userSessions reopened !! sender
        = Some {| step := set_copies; printJobId := "1000"; lastActivity := 1000 |}
    ∧ status job = failed
    ∧ copies job = 1
    ∧ (exec (handleUserResponse calm (says "7")) reopened).1 = Normal ()
    ∧ printQueue (bot (exec (handleUserResponse calm (says "7")) reopened).2)
        !! "1000"%string = Some job'
    ∧ job' ≠ job
    ∧ status job' = failed
    ∧ copies job' = 7.
Proof.
  do 2 eexists. repeat split; try (vm_compute; reflexivity).
  vm_compute. discriminate.
Qed.

(** C2, as the code has it.  The copies input and the duplex toggle are
    applied to whatever job the queue holds under the id, with no look at its
    status: a valid copies value is stored with the recomputed cost, choice 4
    flips [duplex], and in both cases every other field, the status included,
    stays as it was. *)
Theorem option_mutation_ignores_status (w : World) (b : Bot) (msg : Message)
    (id : string) (job : PrintJob) :
  printQueue b !! id = Some job →
  (∀ response n,
     JsString.parseInt response = Some n → 1 ≤ n ≤ 10 →
     printQueue (bot (exec (handleCopiesInput w msg response id) b).2) !! id
       = Some (with_estimatedCost
                 (pageCount job * (if color (printOptions job) then 2000 else 500) * n)
                 (with_copies n job)))
  ∧ printQueue (bot (exec (handleOptionsInput w msg "4" id) b).2) !! id
      = Some (with_printOptions (toggle_duplex (printOptions job)) job).
Proof.
  intros Hq. split.
  - intros response n Hp Hn.
    assert (Hr : (n <? 1) || (10 <? n) = false)
      by (apply orb_false_iff; split; apply Z.ltb_ge; lia).
    unfold exec, handleCopiesInput, function.
    crunch; rewrite ?lookup_insert_eq; reflexivity.
  - unfold exec, handleOptionsInput, function.
    crunch; rewrite ?lookup_insert_eq; reflexivity.
Qed.

(** A job that is already [printing] gets its duplex flag flipped. *)
Lemma option_mutation_ignores_status_witness :
  let job := with_startedAt 1000 (with_status printing job1000) in
  printQueue midPrint !! "1000"%string = Some job
  ∧ status job = printing
  ∧ printQueue (bot (exec (handleOptionsInput calm (says "4") "4" "1000") midPrint).2)
      !! "1000"%string
    = Some (with_printOptions (toggle_duplex (printOptions job)) job)
  ∧ duplex (toggle_duplex (printOptions job)) = true.
Proof.
  intros job.
  assert (Hq : printQueue midPrint !! "1000"%string = Some job)
    by (vm_compute; reflexivity).
  split; [exact Hq|]. split; [reflexivity|]. split; [|reflexivity].
  exact (proj2 (option_mutation_ignores_status calm midPrint (says "4") "1000" job Hq)).
Defined.

(** ** Cancelling at the confirmation prompt *)

(** C3. What the code does with a cancellation word at [confirm_print]: it
    calls [this.cancelPrintJob], which the class does not define, so the
    handler ends with a thrown [TypeError]; nothing was sent, and the bot
    (job and session included) is exactly as before. *)
Theorem confirm_print_cancel_throws (w : World) (b : Bot) (msg : Message)
    (s : Session) :
  userSessions b !! from msg = Some s →
  step s = confirm_print →
  includes ["batal"; "cancel"; "no"; "tidak"]%string
    (JsString.trim (JsString.toLowerCase (body msg))) = true →
  ("cancelPrintJob"%string ∉ methods)
  ∧ exec (handleUserResponse w msg) b
    = (Throw (TypeError "this.cancelPrintJob is not a function"),
       {| bot := b; trace := [] |}).
Proof.
  intros Hs Hstep Hc. split; [apply undefined_methods|].
  pose proof (cancel_not_yes _ Hc) as Hy.
  unfold exec, handleUserResponse, function. by crunch.
Qed.

(** The sender answers the confirmation prompt with [" Batal"]: the job and
    the session are still there afterwards. *)
Lemma confirm_print_cancel_throws_witness :
  let b := uploaded defaultConfig in
  let r := exec (handleUserResponse calm (says " Batal")) b in
  step <$> userSessions b !! sender = Some confirm_print
  ∧ r.1 = Throw (TypeError "this.cancelPrintJob is not a function")
  ∧ printQueue (bot r.2) !! "1000"%string = Some job1000
  ∧ step <$> userSessions (bot r.2) !! sender = Some confirm_print.
Proof.
  intros b r.
  assert (Hs : userSessions b !! from (says " Batal")
               = Some {| step := confirm_print; printJobId := "1000";
                         lastActivity := 1000 |}) by (vm_compute; reflexivity).
  pose proof (proj2 (confirm_print_cancel_throws calm b (says " Batal") _ Hs
                       eq_refl eq_refl)) as Hr.
  subst r. rewrite Hr. repeat split; vm_compute; reflexivity.
Defined.

(** ** Sessions whose job is gone *)

(** C9. What the code does when the session points at a job the queue no
    longer holds: at [set_copies], at [set_options], and at [confirm_print]
    with a word that opens the options menu, the handler sends the not-found
    text and returns, and the bot is unchanged: the dangling session is
    still in the session store. *)
Theorem dangling_session_survives (w : World) (b : Bot) (msg : Message)
    (s : Session) :
  userSessions b !! from msg = Some s →
  printQueue b !! printJobId s = None →
  step s = set_copies ∨ step s = set_options
  ∨ (step s = confirm_print
     ∧ includes ["opsi"; "option"; "setting"]%string
         (JsString.trim (JsString.toLowerCase (body msg))) = true) →
  sendOk w 0 = true →
  exec (handleUserResponse w msg) b
    = (Normal (), {| bot := b; trace := [Reply TJobNotFound] |})
  ∧ userSessions (bot (exec (handleUserResponse w msg) b).2) !! from msg = Some s.
Proof.
  intros Hs Hq Hstep Hsend.
  assert (exec (handleUserResponse w msg) b
          = (Normal (), {| bot := b; trace := [Reply TJobNotFound] |})) as Hr.
  { unfold exec, handleUserResponse, function.
    destruct Hstep as [Hstep|[Hstep|[Hstep Ho]]].
    - unfold handleCopiesInput, function. by crunch.
    - unfold handleOptionsInput, function. by crunch.
    - destruct (opsi_not_yes_nor_cancel _ Ho) as [Hy Hc].
      unfold showPrintOptions, function. by crunch. }
  split; [exact Hr|]. by rewrite Hr.
Qed.

(** A session at [set_copies] whose job 1000 is gone; the sender types 3. *)
Lemma dangling_session_survives_witness :
  let b := dangling set_copies in
  let r := exec (handleUserResponse calm (says "3")) b in
  printQueue b !! "1000"%string = None
  ∧ r.1 = Normal ()
  ∧ trace r.2 = [Reply TJobNotFound]
  ∧ userSessions (bot r.2) !! sender
    = Some {| step := set_copies; printJobId := "1000"; lastActivity := 1000 |}.
Proof.
  intros b r.
  assert (Hs : userSessions b !! from (says "3")
               = Some {| step := set_copies; printJobId := "1000";
                         lastActivity := 1000 |}) by (vm_compute; reflexivity).
  assert (Hq : printQueue b !! "1000"%string = None) by (vm_compute; reflexivity).
  destruct (dangling_session_survives calm b (says "3") _ Hs Hq (or_introl eq_refl)
              eq_refl) as [Hr Hkeep].
  subst r. rewrite Hr.
  split; [exact Hq|]. split; [reflexivity|]. split; [reflexivity|exact Hs].
Defined.

(** ** Execution engine *)

(** C7. When the health check is reached (the first reply went out) and
    reports offline, the run leaves the job [failed], makes no print attempt
    and asks the printer for its health exactly once, whether or not the
    later chat edits go through. *)
Theorem processPrintJob_offline_no_attempt (w : World) (b : Bot)
    (msg : Message) (id : string) (job : PrintJob) :
  printQueue b !! id = Some job →
  sendOk w 0 = true →
  checkPrinterOnline w = false →
  let r := (exec (processPrintJob w msg id) b).2 in
  status <$> printQueue (bot r) !! id = Some failed
  ∧ count_prints (trace r) = 0%nat
  ∧ count_checks (trace r) = 1%nat.
Proof.
  intros Hq Hs Hoff. unfold exec, processPrintJob, function.
  crunch; repeat split; rewrite ?lookup_insert_eq; reflexivity.
Qed.

(** The upload is confirmed while the printer is offline. *)
Lemma processPrintJob_offline_no_attempt_witness :
  let r := (exec (processPrintJob offline (says "YA") "1000")
              (uploaded defaultConfig)).2 in
  printQueue (uploaded defaultConfig) !! "1000"%string = Some job1000
  ∧ status <$> printQueue (bot r) !! "1000"%string = Some failed
  ∧ count_prints (trace r) = 0%nat
  ∧ count_checks (trace r) = 1%nat.
Proof.
  intros r.
  assert (Hq : printQueue (uploaded defaultConfig) !! "1000"%string = Some job1000)
    by (vm_compute; reflexivity).
  split; [exact Hq|].
  exact (processPrintJob_offline_no_attempt offline (uploaded defaultConfig)
           (says "YA") "1000" job1000 Hq eq_refl eq_refl).
Defined.

(** C5. What the code does on the offline outcome: the [return] inside the
    [try] block leaves [processPrintJob] before its last two statements, so
    the run ends normally with the session still stored and no timer set. *)
Theorem processPrintJob_offline_skips_cleanup (w : World) (b : Bot)
    (msg : Message) (id : string) (job : PrintJob) :
  printQueue b !! id = Some job →
  sendOk w 0 = true →
  checkPrinterOnline w = false →
  sendOk w 1 = true →
  let r := exec (processPrintJob w msg id) b in
  r.1 = Normal ()
  ∧ status <$> printQueue (bot r.2) !! id = Some failed
  ∧ userSessions (bot r.2) = userSessions b
  ∧ timers (bot r.2) = timers b.
Proof.
  intros Hq Hs Hoff Hs1. unfold exec, processPrintJob, function.
  crunch. done.
Qed.

(** After the refused confirmation the session is still at [confirm_print],
    the failed job is still queued and no timer is pending. *)
Lemma processPrintJob_offline_skips_cleanup_witness :
  let b := uploaded defaultConfig in
  let r := exec (processPrintJob offline (says "YA") "1000") b in
  printQueue b !! "1000"%string = Some job1000
  ∧ r.1 = Normal ()
  ∧ status <$> printQueue (bot r.2) !! "1000"%string = Some failed
  ∧ step <$> userSessions (bot r.2) !! sender = Some confirm_print
  ∧ timers (bot r.2) = [].
Proof.
  intros b r.
  assert (Hq : printQueue b !! "1000"%string = Some job1000)
    by (vm_compute; reflexivity).
  destruct (processPrintJob_offline_skips_cleanup offline b (says "YA") "1000"
              job1000 Hq eq_refl eq_refl eq_refl) as (Hn & Hst & Hses & Htm).
  split; [exact Hq|]. split; [exact Hn|]. split; [exact Hst|].
  subst r. rewrite Hses, Htm. split; vm_compute; reflexivity.
Defined.

(** The other outcomes do reach the last two statements: with the printer
    online and the chat delivering, the session is deleted and one cleanup
    timer is set, five minutes after the clock at the end of the run. *)
Lemma processPrintJob_online_schedules_cleanup (w : World) (b : Bot)
    (msg : Message) (id : string) (job : PrintJob) :
  printQueue b !! id = Some job →
  (∀ n, sendOk w n = true) →
  checkPrinterOnline w = true →
  let r := exec (processPrintJob w msg id) b in
  r.1 = Normal ()
  ∧ userSessions (bot r.2) = delete (from msg) (userSessions b)
  ∧ timers (bot r.2)
    = timers b ++ [{| due := now (bot r.2) + 300000;
                      callback := CleanupPrintJob id |}].
Proof.
  intros Hq Hs Hon. unfold exec, processPrintJob, function.
  pose proof (Hs 0%nat). pose proof (Hs 1%nat). pose proof (Hs 2%nat).
  crunch; done.
Qed.

(** C4. What the code does when all three attempts fail: the job becomes
    [failed] and gets its [failedAt] stamp (the clock after the two waits),
    but the history list is left exactly as it was: no snapshot is added. *)
Theorem processPrintJob_exhausted_not_in_history (w : World) (b : Bot)
    (msg : Message) (id : string) (job : PrintJob) :
  printQueue b !! id = Some job →
  sendOk w 0 = true →
  checkPrinterOnline w = true →
  sendOk w 1 = true →
  executePrintOk w 1 = false →
  executePrintOk w 2 = false →
  executePrintOk w 3 = false →
  let r := (exec (processPrintJob w msg id) b).2 in
  (∃ job', printQueue (bot r) !! id = Some job'
           ∧ status job' = failed
           ∧ failedAt job' = Some (now b + 4000))
  ∧ count_prints (trace r) = 3%nat
  ∧ printHistory (bot r) = printHistory b.
Proof.
  intros Hq Hs Hon Hs1 H1 H2 H3. unfold exec, processPrintJob, function.
  crunch; (split; [eexists; split; [rewrite ?lookup_insert_eq; reflexivity|]|]);
    cbn; repeat split; f_equal; lia.
Qed.

(** The confirmed upload meets a printer that fails every attempt. *)
Lemma processPrintJob_exhausted_not_in_history_witness :
  let b := uploaded defaultConfig in
  let r := (exec (processPrintJob jammed (says "YA") "1000") b).2 in
  printQueue b !! "1000"%string = Some job1000
  ∧ printHistory b = []
  ∧ status <$> printQueue (bot r) !! "1000"%string = Some failed
  ∧ failedAt <$> printQueue (bot r) !! "1000"%string = Some (Some 5000)
  ∧ printHistory (bot r) = [].
Proof.
  intros b r.
  assert (Hq : printQueue b !! "1000"%string = Some job1000)
    by (vm_compute; reflexivity).
  destruct (processPrintJob_exhausted_not_in_history jammed b (says "YA") "1000"
              job1000 Hq eq_refl eq_refl eq_refl eq_refl eq_refl eq_refl)
    as ((job' & Hj & Hst & Hf) & _ & Hh).
  split; [exact Hq|]. split; [reflexivity|].
  subst r. rewrite Hj, Hh. cbn. rewrite Hst, Hf. repeat split.
Defined.

(** The sibling branch: a run that prints does add its snapshot, at the
    front of the history. *)
Lemma processPrintJob_success_in_history (w : World) (b : Bot)
    (msg : Message) (id : string) (job : PrintJob) :
  printQueue b !! id = Some job →
  sendOk w 0 = true → checkPrinterOnline w = true → sendOk w 1 = true →
  executePrintOk w 1 = true →
  (length (printHistory b) < 100)%nat →
  status <$> head (printHistory (bot (exec (processPrintJob w msg id) b).2))
    = Some completed.
Proof.
  intros Hq Hs Hon Hs1 H1 Hlen. unfold exec, processPrintJob, function.
  assert (Hcap : (100 <? S (length (printHistory b)))%nat = false)
    by (apply Nat.ltb_ge; lia).
  crunch; unfold pushHistory; cbn [length]; rewrite Hcap; reflexivity.
Qed.

(** *** The retry loop, for any bound *)

Module RetryFacts.

Lemma schedule_app (tr1 tr2 : list Event) :
  schedule (tr1 ++ tr2) = schedule tr1 ++ schedule tr2.
Proof.
  induction tr1 as [|e tr1 IH]; [done|].
  destruct e; simpl; by rewrite ?IH.
Qed.

Lemma count_prints_app (tr1 tr2 : list Event) :
  count_prints (tr1 ++ tr2) = (count_prints tr1 + count_prints tr2)%nat.
Proof.
  induction tr1 as [|e tr1 IH]; [done|].
  destruct e; simpl; by rewrite ?IH.
Qed.

Lemma plan_S (m : nat) :
  plan (S (S m)) = Attempt :: Wait 2000 :: plan (S m).
Proof. reflexivity. Qed.

Lemma plan_length (m : nat) : length (plan m) = (2 * m - 1)%nat.
Proof.
  destruct m as [|m]; [done|]. simpl.
  induction m as [|m IH]; [done|]. simpl in *. lia.
Qed.

Lemma firstFrom_range ok remaining : ∀ attempt k,
  firstFrom ok remaining attempt = Some k →
  (attempt ≤ k < attempt + remaining)%nat ∧ ok k = true.
Proof.
  induction remaining as [|rem IH]; intros attempt k; simpl; [done|].
  destruct (ok attempt) eqn:Hok.
  - intros [= <-]. split; [lia|done].
  - intros H%IH. split; [lia|tauto].
Qed.

(** Induction over the iterations that are left: the loop answers whether
    some attempt succeeded, and what it adds to the trace is a plan of as
    many attempts as it made. *)
Lemma retryLoop_spec (w : World) (job : PrintJob) (maxRetries : nat) :
  ∀ remaining attempt r,
    S (count_prints (trace r)) = attempt →
    (attempt + remaining = S maxRetries)%nat →
    ∃ r',
      run (retryLoop w job maxRetries remaining attempt) r
        = (Normal (bool_decide (is_Some (firstFrom (executePrintOk w) remaining attempt))), r')
      ∧ schedule (trace r')
        = schedule (trace r) ++ plan (attemptsFrom (executePrintOk w) remaining attempt)
      ∧ count_prints (trace r')
        = (count_prints (trace r) + attemptsFrom (executePrintOk w) remaining attempt)%nat.
Proof.
  induction remaining as [|rem IH]; intros attempt r Hidx Hsum.
  - exists r. unfold attemptsFrom. simpl. rewrite app_nil_r. repeat split. lia.
  - unfold attemptsFrom. cbn -[plan Nat.ltb].
    rewrite count_prints_app. cbn [count_prints]. rewrite Nat.add_0_r, Hidx.
    destruct (executePrintOk w attempt) eqn:Hok.
    + eexists. split; [reflexivity|]. cbn -[plan].
      rewrite !schedule_app, !count_prints_app. cbn.
      replace (attempt + 1 - attempt)%nat with 1%nat by lia.
      rewrite app_nil_r. split; [done|lia].
    + destruct (attempt <? maxRetries)%nat eqn:Hlt; cbn -[plan Nat.ltb].
      * apply Nat.ltb_lt in Hlt.
        match goal with
        | |- context [run (retryLoop _ _ _ rem (S attempt)) ?r0] =>
            destruct (IH (S attempt) r0) as (r' & Hrun & Hsch & Hcnt)
        end.
        { cbn. rewrite !count_prints_app. cbn. lia. }
        { lia. }
        rewrite Hrun. exists r'. split; [reflexivity|].
        rewrite Hsch, Hcnt. cbn -[plan].
        rewrite !schedule_app, !count_prints_app. cbn -[plan].
        unfold attemptsFrom.
        destruct rem as [|rem']; [lia|].
        destruct (firstFrom (executePrintOk w) (S rem') (S attempt)) as [k|] eqn:Hk.
        -- apply firstFrom_range in Hk as [Hk _].
           replace (k + 1 - attempt)%nat with (S (S (k - S attempt))) by lia.
           replace (k + 1 - S attempt)%nat with (S (k - S attempt)) by lia.
           rewrite plan_S, <- !app_assoc. split; [reflexivity|lia].
        -- rewrite plan_S, <- !app_assoc. split; [reflexivity|lia].
      * apply Nat.ltb_ge in Hlt. assert (rem = 0%nat) as -> by lia.
        eexists. split; [reflexivity|]. cbn.
        rewrite !schedule_app, !count_prints_app. cbn.
        rewrite app_nil_r. split; [done|lia].
Qed.

(** [executePrintWithRetry] from a run that has not printed yet. *)
Lemma executePrintWithRetry_spec (w : World) (job : PrintJob) (maxRetries : nat)
    (r : Run) :
  count_prints (trace r) = 0%nat →
  ∃ r',
    run (executePrintWithRetry w job maxRetries) r
      = (Normal (bool_decide (is_Some (firstSuccess (executePrintOk w) maxRetries))), r')
    ∧ schedule (trace r')
      = schedule (trace r)
        ++ plan (default maxRetries (firstSuccess (executePrintOk w) maxRetries))
    ∧ (count_prints (trace r') ≤ maxRetries)%nat.
Proof.
  intros H0.
  destruct (retryLoop_spec w job maxRetries maxRetries 1 r) as (r' & Hrun & Hsch & Hcnt);
    [lia|lia|].
  exists r'. split; [exact Hrun|].
  unfold attemptsFrom, firstSuccess in *.
  destruct (firstFrom (executePrintOk w) maxRetries 1) as [k|] eqn:Hk.
  - apply firstFrom_range in Hk as [Hk _]. cbn.
    replace (k + 1 - 1)%nat with k in * by lia. split; [done|lia].
  - cbn. split; [done|lia].
Qed.

End RetryFacts.




(** ** Reclamation *)

Module SweepFacts.

#[local] Set Warnings "-clear-no-such-hyp".

(** One [cleanupPrintJob]: it always returns; it touches no other key; it
    never adds a file; and when the job's file can be unlinked (or is
    already gone) the job leaves the queue and the file the disk. *)
Lemma cleanupPrintJob_run (w : World) (k : string) (r : Run) :
  ∃ r',
    run (cleanupPrintJob w k) r = (Normal (), r')
    ∧ now (bot r') = now (bot r)
    ∧ (∀ k', k' ≠ k → printQueue (bot r') !! k' = printQueue (bot r) !! k')
    ∧ (printQueue (bot r) !! k = None → printQueue (bot r') !! k = None)
    ∧ files (bot r') ⊆ files (bot r)
    ∧ (∀ j, printQueue (bot r) !! k = Some j →
         (filePath j ∈ files (bot r) → unlinkOk w (filePath j) = true) →
         printQueue (bot r') !! k = None ∧ filePath j ∉ files (bot r')).
Proof.
  unfold cleanupPrintJob. cbn -[lookup delete elem_of difference].
  destruct (printQueue (bot r) !! k) as [j|] eqn:Hj;
    cbn -[lookup delete elem_of difference];
    [|exists r; repeat split; done].
  destruct (bool_decide (filePath j ∈ files (bot r))) eqn:Hin;
    [apply bool_decide_eq_true in Hin; destruct (unlinkOk w (filePath j)) eqn:Hun
    |apply bool_decide_eq_false in Hin];
    cbn -[lookup delete elem_of difference];
    (eexists; split; [reflexivity|]);
    cbn -[lookup delete elem_of difference];
    repeat split; intros; simplify_eq;
    rewrite ?lookup_delete_eq, ?lookup_delete_ne by done;
    try done; try set_solver;
    match goal with
    | H : _ → unlinkOk _ _ = true |- _ => specialize (H Hin); congruence
    end.
Qed.

(** The loop over any list of entries, by induction on the list. *)
Lemma sweep_loop (w : World) (t : Z) (l : list (string * PrintJob)) :
  ∀ r, ∃ r',
    run (forEach l (visit w t)) r = (Normal (), r')
    ∧ files (bot r') ⊆ files (bot r)
    ∧ (∀ k, printQueue (bot r) !! k = None → printQueue (bot r') !! k = None)
    ∧ (∀ k, (∀ j, (k, j) ∈ l → sweepable t j = false) →
         printQueue (bot r') !! k = printQueue (bot r) !! k)
    ∧ (∀ k j0 j, (k, j0) ∈ l → sweepable t j0 = true →
         printQueue (bot r) !! k = Some j →
         (filePath j ∈ files (bot r) → unlinkOk w (filePath j) = true) →
         printQueue (bot r') !! k = None ∧ filePath j ∉ files (bot r')).
Proof.
  induction l as [|[k1 j1] l IH]; intros r.
  - exists r. split; [reflexivity|]. split; [done|]. split; [done|].
    split; [done|]. intros k j0 j Hin. by apply elem_of_nil in Hin.
  - assert (∃ r1, run (visit w t (k1, j1)) r = (Normal (), r1)
              ∧ (∀ k', k' ≠ k1 → printQueue (bot r1) !! k' = printQueue (bot r) !! k')
              ∧ (printQueue (bot r) !! k1 = None → printQueue (bot r1) !! k1 = None)
              ∧ files (bot r1) ⊆ files (bot r)
              ∧ (sweepable t j1 = false → r1 = r)
              ∧ (sweepable t j1 = true → ∀ j, printQueue (bot r) !! k1 = Some j →
                   (filePath j ∈ files (bot r) → unlinkOk w (filePath j) = true) →
                   printQueue (bot r1) !! k1 = None ∧ filePath j ∉ files (bot r1)))
      as (r1 & Hrun1 & Hother & Hnone & Hfiles & Hskip & Hgone).
    { unfold visit. destruct (sweepable t j1).
      - destruct (cleanupPrintJob_run w k1 r) as (r1 & H1 & _ & H2 & H3 & H4 & H5).
        exists r1. do 5 (split; [done|]). intros _. exact H5.
      - exists r. do 5 (split; [done|]). done. }
    destruct (IH r1) as (r' & Hrun & Hf' & Hnone' & Hkeep' & Hgone').
    exists r'. split.
    { cbn [forEach]. unfold mbind, M_bind. cbn [run]. rewrite Hrun1. exact Hrun. }
    split; [set_solver|]. split; [|split].
    + intros k Hk. apply Hnone'. destruct (decide (k = k1)) as [->|Hne].
      * by apply Hnone.
      * by rewrite Hother.
    + intros k Hall. rewrite Hkeep'.
      * destruct (decide (k = k1)) as [->|Hne]; [|by apply Hother].
        rewrite Hskip; [done|]. apply Hall. left.
      * intros j Hin. apply Hall. by right.
    + intros k j0 j Hin Hsw Hq Hok.
      destruct (decide (k = k1)) as [->|Hne].
      * destruct (sweepable t j1) eqn:Hsw1.
        -- destruct (Hgone eq_refl j Hq Hok) as [Hn Hfile].
           split; [by apply Hnone'|set_solver].
        -- rewrite (Hskip eq_refl) in *.
           apply elem_of_cons in Hin as [[= ->]|Hin]; [congruence|].
           by apply (Hgone' k1 j0 j).
      * apply elem_of_cons in Hin as [[= ->]|Hin]; [done|].
        apply (Hgone' k j0 j); [done|done|by rewrite Hother|].
        intros Hin1. apply Hok. set_solver.
Qed.

(** The deferred removal, once its timer comes due: the job leaves the
    queue and its file the disk. *)
Lemma fire_removes_job (w : World) (t : Z) (k : string) (j : PrintJob) (r : Run) :
  printQueue (bot r) !! k = Some j →
  unlinkOk w (filePath j) = true →
  ∃ r', run (fire w {| due := t; callback := CleanupPrintJob k |}) r = (Normal (), r')
        ∧ printQueue (bot r') !! k = None
        ∧ filePath j ∉ files (bot r').
Proof.
  intros Hq Hok. unfold fire. cbn [callback].
  destruct (cleanupPrintJob_run w k r) as (r' & Hrun & _ & _ & _ & _ & Hgone).
  exists r'. split; [exact Hrun|]. apply Hgone; auto.
Qed.

End SweepFacts.

(** C10, refuted as stated.  The upload was never confirmed and the clock is
    two hours on: the job is older than the maximum age and still [pending],
    and after a sweep it is still in the queue and its file still on disk. *)
Lemma sweep_keeps_abandoned_job_counterexample :
  let r := exec (cleanupOldPrintJobs calm) abandoned in
  printQueue abandoned !! "1000"%string = Some job1000
  ∧ status job1000 = pending
  ∧ 60 * 60 * 1000 < now abandoned - createdAt job1000
  ∧ r.1 = Normal ()
  ∧ printQueue (bot r.2) !! "1000"%string = Some job1000
  ∧ filePath job1000 ∈ files (bot r.2).
Proof.
  cbv zeta. split; [vm_compute; reflexivity|]. split; [reflexivity|].
  split; [vm_compute; reflexivity|]. split; [vm_compute; reflexivity|].
  split; [vm_compute; reflexivity|].
  apply (bool_decide_unpack _). vm_compute. exact I.
Qed.

(** C10, as the code has it.  A sweep always returns, and for a job the
    queue holds: if the guard of the sweep is false for it, which is the case
    for every [pending] and every [printing] job whatever its age, the job
    is still queued, unchanged, after the sweep; if the guard is true (older
    than one hour and [completed] or [failed]) and its file can be unlinked,
    the job is gone from the queue and its file from the disk. *)
Theorem sweep_removes_only_old_terminal_jobs (w : World) (b : Bot)
    (id : string) (job : PrintJob) :
  printQueue b !! id = Some job →
  let r := exec (cleanupOldPrintJobs w) b in
  r.1 = Normal ()
  ∧ (status job = pending ∨ status job = printing → sweepable (now b) job = false)
  ∧ (sweepable (now b) job = false → printQueue (bot r.2) !! id = Some job)
  ∧ (sweepable (now b) job = true →
     (filePath job ∈ files b → unlinkOk w (filePath job) = true) →
     printQueue (bot r.2) !! id = None ∧ filePath job ∉ files (bot r.2)).
Proof.
  intros Hq r.
  destruct (SweepFacts.sweep_loop w (now b) (map_to_list (printQueue b))
              {| bot := b; trace := [] |})
    as (r' & Hrun & Hfiles & Hnone & Hkeep & Hgone).
  assert (Hr : r.1 = Normal () ∧ bot r.2 = bot r').
  { subst r. unfold exec, cleanupOldPrintJobs.
    unfold mbind, M_bind. cbn [run get bot].
    rewrite Hrun.
    destruct (0 <? _)%nat; cbn; done. }
  destruct Hr as [Hn Hb]. split; [exact Hn|]. rewrite Hb. split; [|split].
  - unfold sweepable. intros [->| ->]; cbn; apply andb_false_r.
  - intros Hsw. rewrite Hkeep; [exact Hq|].
    intros j Hin%elem_of_map_to_list. cbn in Hin. congruence.
  - intros Hsw Hok. apply (Hgone id job job); try done.
    by apply elem_of_map_to_list.
Qed.

(** The job of the refused confirmation is [failed]; two hours later a
    sweep removes it and its file, while a [pending] job of the same age
    stays. *)
Lemma sweep_removes_only_old_terminal_jobs_witness :
  let old := with_now (fun _ => 1000 + 2 * 60 * 60 * 1000) refused in
  let job := with_status failed (with_startedAt 1000 (with_status printing job1000)) in
  printQueue old !! "1000"%string = Some job
  ∧ sweepable (now old) job = true
  ∧ printQueue (bot (exec (cleanupOldPrintJobs calm) old).2) !! "1000"%string = None
  ∧ filePath job ∉ files (bot (exec (cleanupOldPrintJobs calm) old).2).
Proof.
  intros old job.
  assert (Hq : printQueue old !! "1000"%string = Some job)
    by (vm_compute; reflexivity).
  destruct (sweep_removes_only_old_terminal_jobs calm old "1000" job Hq)
    as (_ & _ & _ & Hgone).
  split; [exact Hq|]. split; [vm_compute; reflexivity|].
  apply Hgone; [vm_compute; reflexivity|]. intros _. reflexivity.
Defined.

(** * Further properties of the code *)

(** ** User statistics *)

Module StatsFacts.

Import Dispatch.

Lemma updateUserStats_other t u v (stats : gmap string UserStat) :
  v ≠ u → updateUserStats t u stats !! v = stats !! v.
Proof.
  intros Hne. unfold updateUserStats.
  rewrite lookup_alter_ne by done.
  destruct (stats !! u); [done|]. by rewrite lookup_insert_ne.
Qed.

Lemma updateUserStats_known t u s (stats : gmap string UserStat) :
  stats !! u = Some s → updateUserStats t u stats !! u = Some (countRequest t s).
Proof.
  intros Hs. unfold updateUserStats. rewrite Hs, lookup_alter_eq, Hs. done.
Qed.

Lemma updateUserStats_new t u (stats : gmap string UserStat) :
  stats !! u = None →
  updateUserStats t u stats !! u
  = Some {| totalRequests := 1; totalPrints := 0; totalPages := 0;
            firstSeen := t; lastSeen := t |}.
Proof.
  intros Hs. unfold updateUserStats. rewrite Hs, lookup_alter_eq, lookup_insert_eq.
  done.
Qed.

Lemma last_default_irrelevant (z : Z) (l : list Z) (d d' : Z) :
  List.last (z :: l) d = List.last (z :: l) d'.
Proof.
  revert z. induction l as [|y l IH]; intros z; [done|].
  change (List.last (y :: l) d = List.last (y :: l) d'). apply IH.
Qed.

Lemma updateUserStatsAll_other l : ∀ u v (st : gmap string UserStat),
  v ≠ u → updateUserStatsAll l u st !! v = st !! v.
Proof.
  induction l as [|y l IH]; intros u v st Hne; [done|].
  unfold updateUserStatsAll in *. cbn [foldl].
  rewrite IH by done. by apply updateUserStats_other.
Qed.

Lemma updateUserStatsAll_known ts : ∀ u s (stats : gmap string UserStat),
  stats !! u = Some s →
  updateUserStatsAll ts u stats !! u
  = Some {| totalRequests := totalRequests s + Z.of_nat (length ts);
            totalPrints := totalPrints s;
            totalPages := totalPages s;
            firstSeen := firstSeen s;
            lastSeen := List.last ts (lastSeen s) |}.
Proof.
  induction ts as [|t ts IH]; intros u s stats Hs.
  - simpl. rewrite Hs, Z.add_0_r. by destruct s.
  - unfold updateUserStatsAll in *. cbn [foldl].
    rewrite (IH u (countRequest t s)) by by apply updateUserStats_known.
    cbn [countRequest totalRequests totalPrints totalPages firstSeen lastSeen].
    f_equal. f_equal.
    + cbn [length]. lia.
    + destruct ts as [|z ts]; [reflexivity|].
      change (List.last (z :: ts) t = List.last (z :: ts) (lastSeen s)).
      apply last_default_irrelevant.
Qed.

End StatsFacts.

(** X1. Request counting.  For a sender the statistics do not know yet, a
    run of [updateUserStats] over a non-empty sequence of messages leaves an
    entry whose [totalRequests] is the number of messages, whose [firstSeen]
    is the clock of the first and [lastSeen] the clock of the last, with no
    prints and no pages; the entries of all other senders are untouched. *)
Theorem updateUserStats_counts_requests (t : Z) (ts : list Z) (u : string)
    (stats : gmap string UserStat) :
  stats !! u = None →
  Dispatch.updateUserStatsAll (t :: ts) u stats !! u
    = Some {| totalRequests := Z.of_nat (length (t :: ts));
              totalPrints := 0; totalPages := 0;
              firstSeen := t; lastSeen := List.last (t :: ts) t |}
  ∧ ∀ v, v ≠ u → Dispatch.updateUserStatsAll (t :: ts) u stats !! v = stats !! v.
Proof.
  intros Hnew. split.
  - unfold Dispatch.updateUserStatsAll. cbn [foldl].
    pose proof (StatsFacts.updateUserStatsAll_known ts u _ _
                  (StatsFacts.updateUserStats_new t u stats Hnew)) as H.
    unfold Dispatch.updateUserStatsAll in H. rewrite H.
    cbn [totalRequests totalPrints totalPages firstSeen lastSeen length].
    f_equal. f_equal; [lia|]. destruct ts; reflexivity.
  - intros v Hne. by apply StatsFacts.updateUserStatsAll_other.
Qed.

(** Three messages at clocks 10, 20 and 35. *)
Lemma updateUserStats_counts_requests_witness :
  (∅ : gmap string UserStat) !! "6281"%string = None
  ∧ Dispatch.updateUserStatsAll [10; 20; 35] "6281" ∅ !! "6281"%string
    = Some {| totalRequests := 3; totalPrints := 0; totalPages := 0;
              firstSeen := 10; lastSeen := 35 |}.
Proof.
  split; [reflexivity|].
  exact (proj1 (updateUserStats_counts_requests 10 [20; 35] "6281" ∅ eq_refl)).
Defined.

(** ** The message gate *)

(** X2. Admins bypass the limiter and the access list: whatever the
    settings and however full the window, a message of an admin is never
    answered with the rate-limit or the no-access reply, and the gate leaves
    the rate windows exactly as they were (no stamp is recorded for admins). *)
Theorem handleMessage_admin_bypass (acc : Dispatch.Access) (botId : string)
    (inb : Dispatch.Inbound) (b : Bot) :
  Dispatch.isAdmin acc
    (JsString.replace "@c.us" "" (from (Dispatch.message inb))) = true →
  (Dispatch.handleMessage acc botId inb b).1 ≠ Dispatch.RateLimited
  ∧ (Dispatch.handleMessage acc botId inb b).1 ≠ Dispatch.Unauthorized
  ∧ rateLimit (Dispatch.handleMessage acc botId inb b).2 = rateLimit b.
Proof.
  intros Hadmin. unfold Dispatch.handleMessage. rewrite Hadmin.
  rewrite andb_false_r. cbn [negb andb].
  rewrite andb_false_r. cbn [andb].
  repeat case_match; repeat split; cbn; congruence.
Qed.

(** An admin whose window is already over a cap of zero still gets through. *)
Lemma handleMessage_admin_bypass_witness :
  let acc := {| Dispatch.enableRateLimit := true;
                Dispatch.allowedUsers := ["111"%string];
                Dispatch.adminNumbers := {["6281"%string]} |} in
  let inb := {| Dispatch.message := Scenario.says "/ping";
                Dispatch.hasMedia := false; Dispatch.mentionedIds := [] |} in
  let b := newBot {| defaultCopies := 1; maxRequestsPerHour := 0 |} 1000 in
  (Dispatch.handleMessage acc "bot" inb b).1
    = Dispatch.Routed (Dispatch.Command "/ping")
  ∧ rateLimit (Dispatch.handleMessage acc "bot" inb b).2 = rateLimit b.
Proof.
  intros acc inb b. split; [vm_compute; reflexivity|].
  apply (handleMessage_admin_bypass acc "bot" inb b). vm_compute. reflexivity.
Defined.

(** X3. What a refusal costs.  A group message that does not mention the
    bot changes nothing at all.  A rate-limited message changes only the
    sender's rate window, which is purged and gets no new stamp.  A message
    refused by the access list changes only the rate windows.  In none of
    the three cases are the statistics, the queue, the sessions or the
    history touched; the statistics count a request exactly when the message
    is handed on. *)
Theorem handleMessage_refusal_effects (acc : Dispatch.Access) (botId : string)
    (inb : Dispatch.Inbound) (b : Bot) :
  let u := JsString.replace "@c.us" "" (from (Dispatch.message inb)) in
  let v := (Dispatch.handleMessage acc botId inb b).1 in
  let b' := (Dispatch.handleMessage acc botId inb b).2 in
  (v = Dispatch.Ignored → b' = b)
  ∧ (v = Dispatch.RateLimited →
     b' = Dispatch.with_rateLimit
            (λ _, <[u := RateLimiter.recent (now b - RateLimiter.hour)
                           (default [] (rateLimit b !! u))]> (rateLimit b)) b)
  ∧ (v = Dispatch.Unauthorized →
     b' = Dispatch.with_rateLimit (λ _, rateLimit b') b)
  ∧ (∀ r, v = Dispatch.Routed r →
     userStats b' = Dispatch.updateUserStats (now b) u (userStats b)
     ∧ printQueue b' = printQueue b ∧ userSessions b' = userSessions b).
Proof.
  intros u v b'. subst u v b'. unfold Dispatch.handleMessage.
  rewrite RateLimiterFacts.checkRateLimit_spec. cbv zeta.
  destruct b as [cfg q ses st rl h tm fs t].
  repeat case_match; simplify_eq; cbn; repeat split; intros; try congruence;
    try discriminate.
Qed.

(** X4. The limiter runs before the access list.  With the limiter on, a
    sender who is neither admin nor on a non-empty access list, and whose
    window is not full, is refused with the no-access reply, and yet the
    clock value of the message is recorded in the sender's window: refused
    messages use up the sender's hourly allowance. *)
Theorem handleMessage_unlisted_sender_is_counted (acc : Dispatch.Access)
    (botId : string) (inb : Dispatch.Inbound) (b : Bot) :
  let u := JsString.replace "@c.us" "" (from (Dispatch.message inb)) in
  let kept := RateLimiter.recent (now b - RateLimiter.hour)
                (default [] (rateLimit b !! u)) in
  Dispatch.str_includes "@g.us" (from (Dispatch.message inb)) = false →
  Dispatch.enableRateLimit acc = true →
  Dispatch.isAdmin acc u = false →
  Dispatch.allowedUsers acc ≠ [] →
  includes (Dispatch.allowedUsers acc) u = false →
  (length kept < maxRequestsPerHour (config b))%nat →
  (Dispatch.handleMessage acc botId inb b).1 = Dispatch.Unauthorized
  ∧ rateLimit (Dispatch.handleMessage acc botId inb b).2 !! u
    = Some (kept ++ [now b])
  ∧ userStats (Dispatch.handleMessage acc botId inb b).2 = userStats b.
Proof.
  intros u kept Hg Hen Hadm Hlist Hnot Hroom. subst u kept.
  unfold Dispatch.handleMessage.
  rewrite RateLimiterFacts.checkRateLimit_spec. cbv zeta.
  rewrite Hg, Hen, Hadm, Hnot. cbn [andb negb].
  apply Nat.leb_gt in Hroom. rewrite Hroom. cbn [negb].
  destruct (Dispatch.allowedUsers acc) as [|a l]; [done|].
  cbn. rewrite lookup_insert_eq. done.
Qed.

(** A stranger writes to a bot with an access list of one other number. *)
Lemma handleMessage_unlisted_sender_is_counted_witness :
  let acc := {| Dispatch.enableRateLimit := true;
                Dispatch.allowedUsers := ["111"%string];
                Dispatch.adminNumbers := ∅ |} in
  let inb := {| Dispatch.message := Scenario.says "halo";
                Dispatch.hasMedia := false; Dispatch.mentionedIds := [] |} in
  let b := newBot defaultConfig 1000 in
  (Dispatch.handleMessage acc "bot" inb b).1 = Dispatch.Unauthorized
  ∧ rateLimit (Dispatch.handleMessage acc "bot" inb b).2 !! "6281"%string
    = Some [1000].
Proof.
  intros acc inb b.
  assert (Hroom : (length (RateLimiter.recent (now b - RateLimiter.hour)
                     (default [] (rateLimit b !! "6281"%string)))
                   < maxRequestsPerHour (config b))%nat) by (vm_compute; lia).
  destruct (handleMessage_unlisted_sender_is_counted acc "bot" inb b
              eq_refl eq_refl eq_refl ltac:(discriminate) eq_refl Hroom)
    as (Hv & Hrl & _).
  split; [exact Hv|exact Hrl].
Defined.

(** X5. A caption beats the attachment.  For a body of ASCII characters
    (where [trim] and [toLowerCase] are JavaScript's byte for byte): when the
    trimmed, lower-cased body starts with a slash, the message is handed to
    command handling (admin or plain), with that trimmed, lower-cased body as
    the command, or refused, and never to file intake, to the conversation
    or to the help text, even if it carries a file or a session is open. *)
Theorem handleMessage_slash_is_a_command (acc : Dispatch.Access)
    (botId : string) (inb : Dispatch.Inbound) (b : Bot) :
  JsString.ascii_only (body (Dispatch.message inb)) = true →
  String.prefix "/"
    (JsString.trim (JsString.toLowerCase (body (Dispatch.message inb)))) = true →
  ∀ r, (Dispatch.handleMessage acc botId inb b).1 = Dispatch.Routed r →
       r = Dispatch.Command
             (JsString.trim (JsString.toLowerCase (body (Dispatch.message inb))))
       ∨ r = Dispatch.AdminCommand
               (JsString.trim (JsString.toLowerCase (body (Dispatch.message inb)))).
Proof.
  intros _ Hslash r. unfold Dispatch.handleMessage.
  rewrite RateLimiterFacts.checkRateLimit_spec. cbv zeta. rewrite Hslash.
  repeat case_match; cbn; intros; simplify_eq; auto.
Qed.

(** A file sent with the caption ["/help"] is a command, not an upload. *)
Lemma handleMessage_slash_is_a_command_witness :
  let acc := {| Dispatch.enableRateLimit := true; Dispatch.allowedUsers := [];
                Dispatch.adminNumbers := ∅ |} in
  let inb := {| Dispatch.message := Scenario.says " /Help ";
                Dispatch.hasMedia := true; Dispatch.mentionedIds := [] |} in
  (Dispatch.handleMessage acc "bot" inb (newBot defaultConfig 1000)).1
  = Dispatch.Routed (Dispatch.Command "/help").
Proof.
  intros acc inb.
  destruct (handleMessage_slash_is_a_command acc "bot" inb
              (newBot defaultConfig 1000) eq_refl eq_refl _ eq_refl) as [H|H];
    [vm_compute; reflexivity | discriminate H].
Defined.

(** X6. Of the commands [handleCommand] knows, exactly four call a method
    the class does not define and so end in a thrown [TypeError]: [/status],
    [/queue], [/cancel] and [/settings]. *)
Theorem handleCommand_throws_iff (command : string) :
  (∃ e, Dispatch.handleCommand command = Dispatch.Throws e)
  ↔ command ∈ ["/status"; "/queue"; "/cancel"; "/settings"]%string.
Proof.
  unfold Dispatch.handleCommand. split.
  - intros [e He]. revert He.
    repeat (match goal with
            | |- context [String.eqb command ?c] =>
                destruct (String.eqb_spec command c) as [->|?]
            end; cbn [orb]);
      try (vm_compute; discriminate); intros _;
      repeat (first [apply list_elem_of_here | apply list_elem_of_further]).
  - intros H. repeat (apply elem_of_cons in H as [->|H]);
      [eexists; vm_compute; reflexivity ..|].
    by apply elem_of_nil in H.
Qed.

(** ** The conversation *)

Module ConversationFacts.

(** [crunch], also splitting on what the conversation handlers test. *)
Ltac explore :=
  repeat (cbn -[lookup insert delete alter size includes];
    match goal with
    | H : ?x = _ |- context [?x] => rewrite H
    | |- context [<[?k := ?v]> ?m !! ?k] => rewrite (lookup_insert_eq m k v)
    | |- context [alter ?f ?k ?m !! ?k] => rewrite (lookup_alter_eq f m k)
    | |- context [sendOk ?w ?n] => destruct (sendOk w n) eqn:?
    | |- context [checkPrinterOnline ?w] => destruct (checkPrinterOnline w) eqn:?
    | |- context [executePrintOk ?w ?n] => destruct (executePrintOk w n) eqn:?
    | |- context [match ?m !! ?k with _ => _ end] => destruct (m !! k) eqn:?
    | |- context [match step ?s with _ => _ end] => destruct (step s) eqn:?
    | |- context [if includes ?l ?x then _ else _] => destruct (includes l x) eqn:?
    | |- context [if String.eqb ?a ?c then _ else _] => destruct (String.eqb a c) eqn:?
    | |- context [match JsString.parseInt ?r with _ => _ end] =>
        destruct (JsString.parseInt r) eqn:?
    | |- context [if ?a || ?c then _ else _] => destruct (a || c) eqn:?
    end); cbn -[lookup insert delete alter size includes].

End ConversationFacts.

Import ConversationFacts.

(** X7. An input of ASCII characters that the current step does not
    understand is answered with the step's re-prompt and changes nothing:
    the job, the session (its [lastActivity] included) and every other part
    of the bot are as before.  This covers an unknown word at
    [confirm_print], a copies value that is not a number or lies outside
    1..10 at [set_copies], and a choice other than 1..5 at [set_options].
    The body is taken to be ASCII because there [trim] and [toLowerCase] are
    JavaScript's byte for byte, so that a word unknown here is unknown to
    the code. *)
Theorem handleUserResponse_invalid_input (w : World) (b : Bot) (msg : Message)
    (s : Session) (job : PrintJob) :
  let response := JsString.trim (JsString.toLowerCase (body msg)) in
  JsString.ascii_only (body msg) = true →
  userSessions b !! from msg = Some s →
  printQueue b !! printJobId s = Some job →
  sendOk w 0 = true →
  (step s = confirm_print →
   includes ["ya"; "y"; "yes"; "ok"]%string response = false →
   includes ["batal"; "cancel"; "no"; "tidak"]%string response = false →
   includes ["opsi"; "option"; "setting"]%string response = false →
   exec (handleUserResponse w msg) b
   = (Normal (), {| bot := b; trace := [Reply TInvalidResponse] |}))
  ∧ (step s = set_copies →
     (∀ n, JsString.parseInt response = Some n → n < 1 ∨ 10 < n) →
     exec (handleUserResponse w msg) b
     = (Normal (), {| bot := b; trace := [Reply TCopiesRange] |}))
  ∧ (step s = set_options →
     response ∉ ["1"; "2"; "3"; "4"; "5"]%string →
     exec (handleUserResponse w msg) b
     = (Normal (), {| bot := b; trace := [Reply TInvalidChoice] |})).
Proof.
  intros response _ Hs Hq Hsend. subst response. repeat split.
  - intros Hstep Hy Hc Ho. unfold exec, handleUserResponse, function. by crunch.
  - intros Hstep Hbad.
    unfold exec, handleUserResponse, handleCopiesInput, function.
    destruct (JsString.parseInt (JsString.trim (JsString.toLowerCase (body msg))))
      as [n|] eqn:Hp.
    + assert (Hr : (n <? 1) || (10 <? n) = true).
      { apply orb_true_iff. destruct (Hbad n eq_refl); [left|right];
          apply Z.ltb_lt; lia. }
      by crunch.
    + by crunch.
  - intros Hstep Hbad.
    unfold exec, handleUserResponse, handleOptionsInput, function.
    assert (∀ c, c ∈ ["1"; "2"; "3"; "4"; "5"]%string →
                 String.eqb (JsString.trim (JsString.toLowerCase (body msg))) c
                 = false) as Hne.
    { intros c Hc. apply String.eqb_neq. intros Heq. apply Hbad. by rewrite Heq. }
    pose proof (Hne "1"%string ltac:(set_solver)) as H1.
    pose proof (Hne "2"%string ltac:(set_solver)) as H2.
    pose proof (Hne "3"%string ltac:(set_solver)) as H3.
    pose proof (Hne "4"%string ltac:(set_solver)) as H4.
    pose proof (Hne "5"%string ltac:(set_solver)) as H5.
    by crunch.
Qed.

(** Eleven copies are asked for at the copies prompt. *)
Lemma handleUserResponse_invalid_input_witness :
  exec (handleUserResponse Scenario.calm (Scenario.says "11")) Scenario.reopened
  = (Normal (), {| bot := Scenario.reopened; trace := [Reply TCopiesRange] |}).
Proof.
  assert (Hs : userSessions Scenario.reopened !! from (Scenario.says "11")
               = Some {| step := set_copies; printJobId := "1000";
                         lastActivity := 1000 |}) by (vm_compute; reflexivity).
  assert (Hq : ∃ job, printQueue Scenario.reopened !! "1000"%string = Some job)
    by (eexists; vm_compute; reflexivity).
  destruct Hq as [job Hq].
  apply (handleUserResponse_invalid_input Scenario.calm Scenario.reopened
           (Scenario.says "11") _ job eq_refl Hs Hq eq_refl); [reflexivity|].
  intros n Hn. vm_compute in Hn. injection Hn as <-. right. lia.
Defined.

Module TransitionFacts.

Section Transitions.

Context (w : World) (b : Bot) (msg : Message) (s : Session) (job : PrintJob).
Hypothesis Hs : userSessions b !! from msg = Some s.
Hypothesis Hq : printQueue b !! printJobId s = Some job.
Hypothesis Hsend : ∀ n, sendOk w n = true.

Let response := JsString.trim (JsString.toLowerCase (body msg)).

Let moved (st : Step) (b0 : Bot) : Bot :=
  Lifecycle.moved (from msg) st (printJobId s) (now b) b0.

Lemma opens_menu :
  step s = confirm_print →
  includes ["opsi"; "option"; "setting"]%string response = true →
  exec (handleUserResponse w msg) b
  = (Normal (), {| bot := moved set_options b;
                   trace := [Reply (TOptionsMenu (originalName job))] |}).
Proof.
  intros Hstep Ho. destruct (opsi_not_yes_nor_cancel _ Ho) as [Hy Hc].
  pose proof (Hsend 0%nat). subst response.
  unfold exec, handleUserResponse, showPrintOptions, function. by crunch.
Qed.

Lemma choice_1 :
  step s = set_options → response = "1"%string →
  exec (handleUserResponse w msg) b
  = (Normal (), {| bot := moved set_copies b; trace := [Reply TAskCopies] |}).
Proof.
  intros Hstep Hr. pose proof (Hsend 0%nat). subst response.
  unfold exec, handleUserResponse, handleOptionsInput, function. by crunch.
Qed.

(** Choice 4 assigns to a field of the job's [printOptions] object, which
    the history snapshots of that job share: the history is left out of the
    comparison, and is said to be unchanged only when it holds no snapshot
    of the job. *)
Lemma choice_4 :
  step s = set_options → response = "4"%string →
  let r := exec (handleUserResponse w msg) b in
  r.1 = Normal ()
  ∧ trace r.2 = [Reply (TDuplex (negb (duplex (printOptions job))));
                 Reply (TOptionsMenu (originalName job))]
  ∧ Lifecycle.forgetHistory (bot r.2)
    = Lifecycle.forgetHistory
        (moved set_options
           (with_printQueue
              <[printJobId s :=
                  with_printOptions (toggle_duplex (printOptions job)) job]> b))
  ∧ ((∀ h, h ∈ printHistory b → id h ≠ id job) →
     printHistory (bot r.2) = printHistory b).
Proof.
  intros Hstep Hr. pose proof (Hsend 0%nat). pose proof (Hsend 1%nat).
  subst response. cbv zeta.
  unfold exec, handleUserResponse, handleOptionsInput, showPrintOptions, function.
  crunch. by repeat split.
Qed.

Lemma choice_5 :
  step s = set_options → response = "5"%string →
  exec (handleUserResponse w msg) b
  = (Normal (),
     {| bot := moved confirm_print b;
        trace := [Reply (TConfirmation job (color (printOptions job))
                           (size (printQueue b)))] |}).
Proof.
  intros Hstep Hr. pose proof (Hsend 0%nat). subst response.
  unfold exec, handleUserResponse, handleOptionsInput, showUpdatedConfirmation,
    function. by crunch.
Qed.

Lemma copies_set (n : Z) :
  step s = set_copies → JsString.parseInt response = Some n → 1 ≤ n ≤ 10 →
  exec (handleUserResponse w msg) b
  = (Normal (),
     {| bot := moved set_options
                 (with_printQueue
                    <[printJobId s :=
                        with_estimatedCost
                          (calculatePrintCost (pageCount job)
                             (color (printOptions job)) * n)
                          (with_copies n job)]> b);
        trace := [Reply (TCopiesChanged n);
                  Reply (TOptionsMenu (originalName job))] |}).
Proof.
  intros Hstep Hp Hn. pose proof (Hsend 0%nat). pose proof (Hsend 1%nat).
  assert (Hr : (n <? 1) || (10 <? n) = false)
    by (apply orb_false_iff; split; apply Z.ltb_ge; lia).
  subst response.
  unfold exec, handleUserResponse, handleCopiesInput, showPrintOptions, function.
  by crunch.
Qed.

End Transitions.

End TransitionFacts.

(** X8. The transitions of the conversation, with the chat delivering and
    the session's job in the queue.  At [confirm_print] a menu word moves the
    session to [set_options]; at [set_options], 1 moves it to [set_copies],
    4 flips [duplex] and stays, 5 moves back to [confirm_print]; at
    [set_copies] a value in 1..10 stores copies and cost and moves to
    [set_options].  Each transition stamps the session with the current
    clock and sends exactly the texts listed.  All but choice 4 change
    nothing else.  Choice 4 writes into the [printOptions] object that the
    job shares with its history snapshots: it changes nothing else outside
    the history, and nothing in the history when the history holds no
    snapshot of the job. *)
Theorem conversation_transitions (w : World) (b : Bot) (msg : Message)
    (s : Session) (job : PrintJob) :
  let response := JsString.trim (JsString.toLowerCase (body msg)) in
  let moved st b0 := Lifecycle.moved (from msg) st (printJobId s) (now b) b0 in
  userSessions b !! from msg = Some s →
  printQueue b !! printJobId s = Some job →
  (∀ n, sendOk w n = true) →
  (step s = confirm_print →
   includes ["opsi"; "option"; "setting"]%string response = true →
   exec (handleUserResponse w msg) b
   = (Normal (), {| bot := moved set_options b;
                    trace := [Reply (TOptionsMenu (originalName job))] |}))
  ∧ (step s = set_options → response = "1"%string →
     exec (handleUserResponse w msg) b
     = (Normal (), {| bot := moved set_copies b; trace := [Reply TAskCopies] |}))
  ∧ (step s = set_options → response = "4"%string →
     let r := exec (handleUserResponse w msg) b in
     r.1 = Normal ()
     ∧ trace r.2 = [Reply (TDuplex (negb (duplex (printOptions job))));
                    Reply (TOptionsMenu (originalName job))]
     ∧ Lifecycle.forgetHistory (bot r.2)
       = Lifecycle.forgetHistory
           (moved set_options
              (with_printQueue
                 <[printJobId s :=
                     with_printOptions (toggle_duplex (printOptions job)) job]> b))
     ∧ ((∀ h, h ∈ printHistory b → id h ≠ id job) →
        printHistory (bot r.2) = printHistory b))
  ∧ (step s = set_options → response = "5"%string →
     exec (handleUserResponse w msg) b
     = (Normal (),
        {| bot := moved confirm_print b;
           trace := [Reply (TConfirmation job (color (printOptions job))
                              (size (printQueue b)))] |}))
  ∧ (∀ n, step s = set_copies → JsString.parseInt response = Some n →
     1 ≤ n ≤ 10 →
     exec (handleUserResponse w msg) b
     = (Normal (),
        {| bot := moved set_options
                    (with_printQueue
                       <[printJobId s :=
                           with_estimatedCost
                             (calculatePrintCost (pageCount job)
                                (color (printOptions job)) * n)
                             (with_copies n job)]> b);
           trace := [Reply (TCopiesChanged n);
                     Reply (TOptionsMenu (originalName job))] |})).
Proof.
  intros response moved Hs Hq Hsend. subst response moved.
  split; [apply (TransitionFacts.opens_menu w b msg s job Hs Hq Hsend)|].
  split; [apply (TransitionFacts.choice_1 w b msg s job Hs Hq Hsend)|].
  split; [apply (TransitionFacts.choice_4 w b msg s job Hs Hq Hsend)|].
  split; [apply (TransitionFacts.choice_5 w b msg s job Hs Hq Hsend)|].
  intros n. apply (TransitionFacts.copies_set w b msg s job Hs Hq Hsend).
Qed.

(** The uploaded job's sender asks for the options menu. *)
Lemma conversation_transitions_witness :
  let b := Scenario.uploaded defaultConfig in
  exec (handleUserResponse Scenario.calm (Scenario.says "OPSI")) b
  = (Normal (),
     {| bot := Lifecycle.moved Scenario.sender set_options "1000" 1000 b;
        trace := [Reply (TOptionsMenu "a.pdf")] |}).
Proof.
  intros b.
  assert (Hs : userSessions b !! from (Scenario.says "OPSI")
               = Some {| step := confirm_print; printJobId := "1000";
                         lastActivity := 1000 |}) by (vm_compute; reflexivity).
  assert (Hq : printQueue b !! "1000"%string = Some Scenario.job1000)
    by (vm_compute; reflexivity).
  exact (proj1 (conversation_transitions Scenario.calm b (Scenario.says "OPSI")
                  _ Scenario.job1000 Hs Hq (λ _, eq_refl)) eq_refl eq_refl).
Defined.

(** X9. Round trip through the menu.  From [confirm_print], a menu word
    followed by choice 5 brings the session back to [confirm_print] for the
    same job; the queue, the history, the statistics and the timers are
    exactly as before, only the session's [lastActivity] is refreshed. *)
Theorem menu_round_trip (w : World) (b : Bot) (chat body1 body2 : string)
    (s : Session) (job : PrintJob) :
  userSessions b !! chat = Some s →
  printQueue b !! printJobId s = Some job →
  (∀ n, sendOk w n = true) →
  step s = confirm_print →
  includes ["opsi"; "option"; "setting"]%string
    (JsString.trim (JsString.toLowerCase body1)) = true →
  JsString.trim (JsString.toLowerCase body2) = "5"%string →
  Lifecycle.converse w [Lifecycle.said chat body1; Lifecycle.said chat body2] b
  = Lifecycle.moved chat confirm_print (printJobId s) (now b) b.
Proof.
  intros Hs Hq Hsend Hstep Ho H5. unfold Lifecycle.converse. cbn [foldl].
  rewrite (TransitionFacts.opens_menu w b (Lifecycle.said chat body1) s job
             Hs Hq Hsend Hstep Ho).
  cbn [snd bot].
  erewrite (TransitionFacts.choice_5 w _ (Lifecycle.said chat body2)
              {| step := set_options; printJobId := printJobId s;
                 lastActivity := now b |} job).
  - cbn. unfold Lifecycle.moved, with_userSessions. cbn.
    by rewrite insert_insert_eq.
  - cbn. apply lookup_insert_eq.
  - exact Hq.
  - exact Hsend.
  - reflexivity.
  - exact H5.
Qed.

(** The sender of the upload opens the menu and leaves it again. *)
Lemma menu_round_trip_witness :
  let b := Scenario.uploaded defaultConfig in
  Lifecycle.converse Scenario.calm
    [Lifecycle.said Scenario.sender "Opsi"; Lifecycle.said Scenario.sender "5"] b
  = Lifecycle.moved Scenario.sender confirm_print "1000" 1000 b.
Proof.
  intros b.
  assert (Hs : userSessions b !! Scenario.sender
               = Some {| step := confirm_print; printJobId := "1000";
                         lastActivity := 1000 |}) by (vm_compute; reflexivity).
  assert (Hq : printQueue b !! "1000"%string = Some Scenario.job1000)
    by (vm_compute; reflexivity).
  exact (menu_round_trip Scenario.calm b Scenario.sender "Opsi" "5" _
           Scenario.job1000 Hs Hq (λ _, eq_refl) eq_refl eq_refl eq_refl).
Defined.

(** X10. Setting the copies.  From [confirm_print], a menu word, then 1,
    then a value [n] in 1..10 leave the job with [copies = n] and
    [estimatedCost] equal to pages times rate times [n], every other field of
    the job as it was, and the session at [set_options]. *)
Theorem copies_dialogue (w : World) (b : Bot) (chat body1 body2 body3 : string)
    (s : Session) (job : PrintJob) (n : Z) :
  userSessions b !! chat = Some s →
  printQueue b !! printJobId s = Some job →
  (∀ k, sendOk w k = true) →
  step s = confirm_print →
  includes ["opsi"; "option"; "setting"]%string
    (JsString.trim (JsString.toLowerCase body1)) = true →
  JsString.trim (JsString.toLowerCase body2) = "1"%string →
  JsString.parseInt (JsString.trim (JsString.toLowerCase body3)) = Some n →
  1 ≤ n ≤ 10 →
  Lifecycle.converse w
    [Lifecycle.said chat body1; Lifecycle.said chat body2; Lifecycle.said chat body3] b
  = Lifecycle.moved chat set_options (printJobId s) (now b)
      (with_printQueue
         <[printJobId s :=
             with_estimatedCost
               (pageCount job * (if color (printOptions job) then 2000 else 500) * n)
               (with_copies n job)]> b).
Proof.
  intros Hs Hq Hsend Hstep Ho H1 Hp Hn. unfold Lifecycle.converse. cbn [foldl].
  pose (b1 := Lifecycle.moved chat set_options (printJobId s) (now b) b).
  pose (b2 := Lifecycle.moved chat set_copies (printJobId s) (now b) b1).
  assert (Hs1 : userSessions b1 !! chat
                = Some {| step := set_options; printJobId := printJobId s;
                          lastActivity := now b |}) by apply lookup_insert_eq.
  assert (Hs2 : userSessions b2 !! chat
                = Some {| step := set_copies; printJobId := printJobId s;
                          lastActivity := now b |}) by apply lookup_insert_eq.
  pose proof (TransitionFacts.opens_menu w b (Lifecycle.said chat body1) s job
                Hs Hq Hsend Hstep Ho) as E1.
  pose proof (TransitionFacts.choice_1 w b1 (Lifecycle.said chat body2) _ job
                Hs1 Hq Hsend eq_refl H1) as E2.
  pose proof (TransitionFacts.copies_set w b2 (Lifecycle.said chat body3) _ job
                Hs2 Hq Hsend n eq_refl Hp Hn) as E3.
  rewrite E1.
  change (bot (exec (handleUserResponse w (Lifecycle.said chat body3))
                 (bot (exec (handleUserResponse w (Lifecycle.said chat body2)) b1).2)).2
          = Lifecycle.moved chat set_options (printJobId s) (now b)
              (with_printQueue
                 <[printJobId s :=
                     with_estimatedCost
                       (pageCount job
                        * (if color (printOptions job) then 2000 else 500) * n)
                       (with_copies n job)]> b)).
  rewrite E2.
  change (bot (exec (handleUserResponse w (Lifecycle.said chat body3)) b2).2
          = Lifecycle.moved chat set_options (printJobId s) (now b)
              (with_printQueue
                 <[printJobId s :=
                     with_estimatedCost
                       (pageCount job
                        * (if color (printOptions job) then 2000 else 500) * n)
                       (with_copies n job)]> b)).
  rewrite E3.
  cbn. unfold Lifecycle.moved, with_userSessions, with_printQueue. cbn.
  by rewrite !insert_insert_eq.
Qed.

(** OPSI, 1, 7 on the three-page upload: seven copies for 10500. *)
Lemma copies_dialogue_witness :
  let b := Scenario.uploaded defaultConfig in
  let b' := Lifecycle.converse Scenario.calm
              [Lifecycle.said Scenario.sender "OPSI";
               Lifecycle.said Scenario.sender "1";
               Lifecycle.said Scenario.sender "7"] b in
  (copies <$> printQueue b' !! "1000"%string) = Some 7
  ∧ (estimatedCost <$> printQueue b' !! "1000"%string) = Some 10500
  ∧ (step <$> userSessions b' !! Scenario.sender) = Some set_options.
Proof.
  intros b b'.
  assert (Hs : userSessions b !! Scenario.sender
               = Some {| step := confirm_print; printJobId := "1000";
                         lastActivity := 1000 |}) by (vm_compute; reflexivity).
  assert (Hq : printQueue b !! "1000"%string = Some Scenario.job1000)
    by (vm_compute; reflexivity).
  subst b'.
  rewrite (copies_dialogue Scenario.calm b Scenario.sender "OPSI" "1" "7" _
             Scenario.job1000 7 Hs Hq (λ _, eq_refl) eq_refl eq_refl eq_refl
             eq_refl ltac:(lia)).
  repeat split; vm_compute; reflexivity.
Defined.

(** X11. The quality and paper-size menus are not there: at [set_options]
    the choices 2 and 3 call [showQualityOptions] and [showPaperSizeOptions],
    which the class does not define, so the handler throws a [TypeError]
    before anything is sent and leaves the bot as it was. *)
Theorem set_options_menus_throw (w : World) (b : Bot) (msg : Message)
    (s : Session) (job : PrintJob) :
  userSessions b !! from msg = Some s →
  printQueue b !! printJobId s = Some job →
  step s = set_options →
  (JsString.trim (JsString.toLowerCase (body msg)) = "2"%string →
   exec (handleUserResponse w msg) b
   = (Throw (TypeError "this.showQualityOptions is not a function"),
      {| bot := b; trace := [] |}))
  ∧ (JsString.trim (JsString.toLowerCase (body msg)) = "3"%string →
     exec (handleUserResponse w msg) b
     = (Throw (TypeError "this.showPaperSizeOptions is not a function"),
        {| bot := b; trace := [] |})).
Proof.
  intros Hs Hq Hstep.
  split; intros Hr; unfold exec, handleUserResponse, handleOptionsInput, function;
    by crunch.
Qed.

(** The sender picks 2 in the options menu. *)
Lemma set_options_menus_throw_witness :
  let b := Lifecycle.moved Scenario.sender set_options "1000" 1000
             (Scenario.uploaded defaultConfig) in
  exec (handleUserResponse Scenario.calm (Scenario.says "2")) b
  = (Throw (TypeError "this.showQualityOptions is not a function"),
     {| bot := b; trace := [] |}).
Proof.
  intros b.
  assert (Hs : userSessions b !! from (Scenario.says "2")
               = Some {| step := set_options; printJobId := "1000";
                         lastActivity := 1000 |}) by (vm_compute; reflexivity).
  assert (Hq : printQueue b !! "1000"%string = Some Scenario.job1000)
    by (vm_compute; reflexivity).
  exact (proj1 (set_options_menus_throw Scenario.calm b (Scenario.says "2") _
                  Scenario.job1000 Hs Hq eq_refl) eq_refl).
Defined.

(** ** More on the execution engine *)

(** X12. Confirming a job that is gone.  When the session's job is not in
    the queue, [processPrintJob] sends the not-found text, deletes the
    session and does nothing else: no health check, no print attempt, no
    timer. *)
Theorem processPrintJob_job_gone (w : World) (b : Bot) (msg : Message)
    (id : string) :
  printQueue b !! id = None →
  sendOk w 0 = true →
  exec (processPrintJob w msg id) b
  = (Normal (), {| bot := with_userSessions (delete (from msg)) b;
                   trace := [Reply TJobNotFound] |}).
Proof. intros Hq Hs. unfold exec, processPrintJob, function. by crunch. Qed.

(** The dangling session is answered with a confirmation. *)
Lemma processPrintJob_job_gone_witness :
  let b := Scenario.dangling confirm_print in
  let r := exec (handleUserResponse Scenario.calm (Scenario.says "ya")) b in
  printQueue b !! "1000"%string = None
  ∧ exec (processPrintJob Scenario.calm (Scenario.says "ya") "1000") b
    = (Normal (), {| bot := with_userSessions (delete Scenario.sender) b;
                     trace := [Reply TJobNotFound] |})
  ∧ userSessions (bot r.2) !! Scenario.sender = None.
Proof.
  intros b r.
  assert (Hq : printQueue b !! "1000"%string = None) by (vm_compute; reflexivity).
  split; [exact Hq|]. split.
  - exact (processPrintJob_job_gone Scenario.calm b (Scenario.says "ya") "1000"
             Hq eq_refl).
  - vm_compute. reflexivity.
Defined.

(** X13. The retry loop for any bound.  From a run that has not printed
    yet, [executePrintWithRetry(job, maxRetries)] returns; it answers [true]
    exactly when some attempt numbered 1..[maxRetries] succeeds; it makes as
    many attempts as the number of the first success (or [maxRetries] when
    there is none), never more than [maxRetries]; and its waits are 2000 ms
    each, one between every two attempts and none after the last. *)
Theorem executePrintWithRetry_any_bound (w : World) (job : PrintJob)
    (maxRetries : nat) (r : Run) :
  count_prints (trace r) = 0%nat →
  ∃ (answer : bool) (r' : Run),
    run (executePrintWithRetry w job maxRetries) r = (Normal answer, r')
    ∧ (answer = true ↔ ∃ k, (1 ≤ k ≤ maxRetries)%nat ∧ executePrintOk w k = true)
    ∧ schedule (trace r')
      = schedule (trace r)
        ++ plan (default maxRetries (firstSuccess (executePrintOk w) maxRetries))
    ∧ (count_prints (trace r') ≤ maxRetries)%nat.
Proof.
  intros H0.
  destruct (RetryFacts.executePrintWithRetry_spec w job maxRetries r H0)
    as (r' & Hrun & Hsch & Hcnt).
  eexists _, r'. split; [exact Hrun|]. split; [|split; assumption].
  rewrite bool_decide_eq_true. unfold firstSuccess. split.
  - intros [k Hk]. apply RetryFacts.firstFrom_range in Hk as [Hk Hok].
    exists k. split; [lia|done].
  - intros (k & Hk & Hok).
    assert (∀ remaining attempt,
              (attempt ≤ k < attempt + remaining)%nat →
              is_Some (firstFrom (executePrintOk w) remaining attempt)) as Hfind.
    { induction remaining as [|rem IH]; intros attempt Hr; [lia|].
      cbn [firstFrom]. destruct (executePrintOk w attempt) eqn:Ha; [by eexists|].
      apply IH. destruct (decide (attempt = k)) as [->|]; [congruence|lia]. }
    apply Hfind. lia.
Qed.

(** Five tries against a printer that answers from the third on. *)
Lemma executePrintWithRetry_any_bound_witness :
  ∃ r', run (executePrintWithRetry Scenario.thirdTime Scenario.job1000 5)
          {| bot := newBot defaultConfig 0; trace := [] |} = (Normal true, r')
        ∧ schedule (trace r') = [Attempt; Wait 2000; Attempt; Wait 2000; Attempt].
Proof.
  destruct (executePrintWithRetry_any_bound Scenario.thirdTime Scenario.job1000 5
              {| bot := newBot defaultConfig 0; trace := [] |} eq_refl)
    as (answer & r' & Hrun & _ & Hsch & _).
  exists r'. split; [|exact Hsch].
  rewrite Hrun. f_equal. f_equal.
  assert (E : run (executePrintWithRetry Scenario.thirdTime Scenario.job1000 5)
                {| bot := newBot defaultConfig 0; trace := [] |}
              = (Normal answer, r')) by exact Hrun.
  vm_compute in E. injection E as E _. symmetry. exact E.
Defined.

(** X14. A print that worked can still end [failed].  When the first
    attempt prints but the success text cannot be delivered, the [catch]
    block takes over: the job in the queue is marked [failed], although the
    history already holds its [completed] snapshot and the sender's statistics
    already count the print.  If the error text is delivered the run ends
    normally with the session deleted and the cleanup timer set; if that send
    is rejected as well, the error leaves [processPrintJob], the session stays
    and no timer is set. *)
Theorem processPrintJob_success_text_rejected (w : World) (b : Bot)
    (msg : Message) (id : string) (job : PrintJob) :
  printQueue b !! id = Some job →
  sendOk w 0 = true → checkPrinterOnline w = true → sendOk w 1 = true →
  executePrintOk w 1 = true →
  sendOk w 2 = false →
  (length (printHistory b) < 100)%nat →
  let r := exec (processPrintJob w msg id) b in
  let u := JsString.replace "@c.us" "" (from msg) in
  status <$> printQueue (bot r.2) !! id = Some failed
  ∧ status <$> head (printHistory (bot r.2)) = Some completed
  ∧ userStats (bot r.2) !! u
    = countPrint job <$> userStats b !! u
  ∧ (sendOk w 3 = true →
     r.1 = Normal ()
     ∧ userSessions (bot r.2) = delete (from msg) (userSessions b)
     ∧ timers (bot r.2)
       = timers b ++ [{| due := now b + 300000; callback := CleanupPrintJob id |}])
  ∧ (sendOk w 3 = false →
     r.1 = Throw TransportError
     ∧ userSessions (bot r.2) = userSessions b
     ∧ timers (bot r.2) = timers b).
Proof.
  intros Hq Hs0 Hon Hs1 Hok Hs2 Hlen.
  assert (Hcap : (100 <? S (length (printHistory b)))%nat = false)
    by (apply Nat.ltb_ge; lia).
  unfold exec, processPrintJob, function.
  crunch; unfold pushHistory; cbn [length]; rewrite ?Hcap;
    repeat split; intros; try discriminate; reflexivity.
Qed.

(** The chat drops the third send of the run and delivers the fourth. *)
Lemma processPrintJob_success_text_rejected_witness :
  let w := {| sendOk := λ n, negb (n =? 2)%nat; checkPrinterOnline := true;
              executePrintOk := λ _, true; unlinkOk := λ _, true |} in
  let b := Scenario.uploaded defaultConfig in
  let r := exec (processPrintJob w (Scenario.says "YA") "1000") b in
  printQueue b !! "1000"%string = Some Scenario.job1000
  ∧ r.1 = Normal ()
  ∧ status <$> printQueue (bot r.2) !! "1000"%string = Some failed
  ∧ status <$> head (printHistory (bot r.2)) = Some completed.
Proof.
  intros w b r.
  assert (Hq : printQueue b !! "1000"%string = Some Scenario.job1000)
    by (vm_compute; reflexivity).
  assert (Hlen : (length (printHistory b) < 100)%nat) by (vm_compute; lia).
  destruct (processPrintJob_success_text_rejected w b (Scenario.says "YA") "1000"
              Scenario.job1000 Hq eq_refl eq_refl eq_refl eq_refl eq_refl Hlen)
    as (Hst & Hh & _ & Hok & _).
  split; [exact Hq|]. split; [exact (proj1 (Hok eq_refl))|].
  split; [exact Hst|exact Hh].
Defined.

(** X15. The status is never read.  [processPrintJob] overwrites the
    status before it does anything else and tests it nowhere, so a run gives
    the same completion, the same bot and the same trace whatever status the
    job had: a job that is already [failed], [completed] or [printing] is
    printed again like a [pending] one. *)
Theorem processPrintJob_ignores_status (w : World) (b : Bot) (msg : Message)
    (id : string) (job : PrintJob) (st : Status) :
  exec (processPrintJob w msg id)
    (with_printQueue <[id := with_status st job]> b)
  = exec (processPrintJob w msg id) (with_printQueue <[id := job]> b).
Proof.
  unfold exec, processPrintJob, function.
  cbn -[lookup insert delete alter size includes].
  rewrite !lookup_insert_eq.
  crunch; rewrite ?insert_insert_eq; try reflexivity;
    unfold with_printQueue; cbn; rewrite ?insert_insert_eq;
    try reflexivity.
  all: repeat f_equal; apply map_eq; intros k;
    destruct (decide (k = id)) as [->|Hne];
    rewrite ?lookup_alter_eq, ?lookup_alter_ne, ?lookup_insert_eq,
      ?lookup_insert_ne by done; reflexivity.
Qed.

(** X16. Statistics of a run.  With the chat delivering and the printer
    online, a run in which one of the three attempts succeeds adds one print
    and [pageCount * copies] pages to the entry of the confirming sender, if
    there is one (no entry is created); a run in which all three fail leaves
    the statistics untouched. *)
Theorem processPrintJob_statistics (w : World) (b : Bot) (msg : Message)
    (id : string) (job : PrintJob) :
  printQueue b !! id = Some job →
  (∀ n, sendOk w n = true) →
  checkPrinterOnline w = true →
  let b' := bot (exec (processPrintJob w msg id) b).2 in
  let u := JsString.replace "@c.us" "" (from msg) in
  match firstSuccess (executePrintOk w) 3 with
  | Some _ =>
      userStats b' !! u
      = (λ s, {| totalRequests := totalRequests s;
                 totalPrints := totalPrints s + 1;
                 totalPages := totalPages s + pageCount job * copies job;
                 firstSeen := firstSeen s; lastSeen := lastSeen s |})
        <$> userStats b !! u
      ∧ ∀ v, v ≠ u → userStats b' !! v = userStats b !! v
  | None => userStats b' = userStats b
  end.
Proof.
  intros Hq Hsend Hon.
  pose proof (Hsend 0%nat). pose proof (Hsend 1%nat). pose proof (Hsend 2%nat).
  unfold exec, processPrintJob, function, firstSuccess.
  crunch; try reflexivity;
    (split; [reflexivity | intros v Hne; by rewrite lookup_alter_ne]).
Qed.

(** The sender of the upload has sent one message before; the job prints at
    the third attempt. *)
Lemma processPrintJob_statistics_witness :
  let b := with_userStats
             <["6281"%string := {| totalRequests := 1; totalPrints := 0;
                                   totalPages := 0; firstSeen := 900;
                                   lastSeen := 1000 |}]>
             (Scenario.uploaded defaultConfig) in
  let b' := bot (exec (processPrintJob Scenario.thirdTime (Scenario.says "YA")
                         "1000") b).2 in
  printQueue b !! "1000"%string = Some Scenario.job1000
  ∧ userStats b' !! "6281"%string
    = Some {| totalRequests := 1; totalPrints := 1; totalPages := 3;
              firstSeen := 900; lastSeen := 1000 |}.
Proof.
  intros b b'.
  assert (Hq : printQueue b !! "1000"%string = Some Scenario.job1000)
    by (vm_compute; reflexivity).
  split; [exact Hq|].
  pose proof (processPrintJob_statistics Scenario.thirdTime b (Scenario.says "YA")
                "1000" Scenario.job1000 Hq (λ _, eq_refl) eq_refl) as H.
  cbv zeta in H. destruct H as [H _].
  etrans; [exact H|]. vm_compute. reflexivity.
Defined.

(** ** Deferred removal *)

Module DeferredFacts.

(** [cleanupPrintJob] touches the queue and the files only. *)
Lemma cleanupPrintJob_frame (w : World) (k : string) (r : Run) :
  let r' := (run (cleanupPrintJob w k) r).2 in
  printHistory (bot r') = printHistory (bot r)
  ∧ timers (bot r') = timers (bot r)
  ∧ userSessions (bot r') = userSessions (bot r)
  ∧ userStats (bot r') = userStats (bot r)
  ∧ now (bot r') = now (bot r).
Proof.
  unfold cleanupPrintJob. cbn -[lookup delete elem_of difference].
  destruct (printQueue (bot r) !! k) as [j|];
    cbn -[lookup delete elem_of difference]; [|done].
  destruct (bool_decide (filePath j ∈ files (bot r)));
    [destruct (unlinkOk w (filePath j))|];
    cbn -[lookup delete elem_of difference]; done.
Qed.

End DeferredFacts.

(** X17. The grace window.  After a run with the printer online and the
    chat delivering, whether the job printed or not, the last pending timer
    is the cleanup of that job; when it comes due and the file can be
    unlinked, the job leaves the queue and its file the disk, the timer is
    spent, and the history is exactly what the run left, so a printed job's
    snapshot outlives the job. *)
Theorem deferred_removal_after_run (w : World) (b : Bot) (msg : Message)
    (id : string) (job : PrintJob) :
  printQueue b !! id = Some job →
  (∀ n, sendOk w n = true) →
  checkPrinterOnline w = true →
  unlinkOk w (filePath job) = true →
  let b1 := bot (exec (processPrintJob w msg id) b).2 in
  let b2 := bot (exec (Deferred.runTimer w (length (timers b))) b1).2 in
  timers b1 !! length (timers b)
    = Some {| due := now b1 + 300000; callback := CleanupPrintJob id |}
  ∧ printQueue b2 !! id = None
  ∧ (filePath job ∉ files b2)
  ∧ timers b2 = timers b
  ∧ printHistory b2 = printHistory b1.
Proof.
  intros Hq Hsend Hon Hun b1 b2.
  destruct (processPrintJob_online_schedules_cleanup w b msg id job Hq Hsend Hon)
    as (_ & _ & Htm).
  fold b1 in Htm.
  assert (Hjob : ∃ j1, printQueue b1 !! id = Some j1 ∧ filePath j1 = filePath job).
  { subst b1. unfold exec, processPrintJob, function.
    pose proof (Hsend 0%nat). pose proof (Hsend 1%nat). pose proof (Hsend 2%nat).
    crunch; eexists; (split; [reflexivity|reflexivity]). }
  destruct Hjob as (j1 & Hj1 & Hpath).
  assert (Ht : timers b1 !! length (timers b)
               = Some {| due := now b1 + 300000; callback := CleanupPrintJob id |}).
  { rewrite Htm. by rewrite list_lookup_middle. }
  split; [exact Ht|].
  subst b2. unfold exec, Deferred.runTimer.
  unfold mbind, M_bind. cbn [run get bot]. rewrite Ht.
  cbn [run modify bot trace]. unfold fire. cbn [callback].
  set (r0 := {| bot := with_timers (delete (length (timers b))) b1; trace := [] |}).
  destruct (SweepFacts.cleanupPrintJob_run w id r0)
    as (r' & Hrun & _ & _ & _ & _ & Hgone).
  pose proof (DeferredFacts.cleanupPrintJob_frame w id r0) as Hframe.
  cbv zeta in Hframe. rewrite Hrun in *. cbn [snd] in Hframe.
  destruct Hframe as (Hh & Htim & _).
  destruct (Hgone j1) as [Hnone Hfile].
  { subst r0. exact Hj1. }
  { intros _. by rewrite Hpath. }
  cbn [fst snd]. split; [exact Hnone|]. split; [by rewrite <- Hpath|].
  split.
  - rewrite Htim. subst r0. cbn [bot timers with_timers]. rewrite Htm.
    rewrite delete_middle. apply app_nil_r.
  - rewrite Hh. reflexivity.
Qed.

(** The upload prints at once; five minutes later its timer fires. *)
Lemma deferred_removal_after_run_witness :
  let b := Scenario.uploaded defaultConfig in
  let b1 := bot (exec (processPrintJob Scenario.calm (Scenario.says "YA") "1000") b).2 in
  let b2 := bot (exec (Deferred.runTimer Scenario.calm 0) b1).2 in
  printQueue b !! "1000"%string = Some Scenario.job1000
  ∧ printQueue b2 !! "1000"%string = None
  ∧ timers b2 = []
  ∧ status <$> head (printHistory b2) = Some completed.
Proof.
  intros b b1 b2.
  assert (Hq : printQueue b !! "1000"%string = Some Scenario.job1000)
    by (vm_compute; reflexivity).
  destruct (deferred_removal_after_run Scenario.calm b (Scenario.says "YA") "1000"
              Scenario.job1000 Hq (λ _, eq_refl) eq_refl eq_refl)
    as (_ & Hnone & _ & Htm & Hh).
  split; [exact Hq|]. split; [exact Hnone|]. split; [exact Htm|].
  subst b2. etrans; [exact (f_equal (λ h, status <$> head h) Hh)|].
  vm_compute. reflexivity.
Defined.

(** ** What every reachable bot satisfies *)

Module ReachFacts.

Import Reach.

#[local] Set Warnings "-clear-no-such-hyp".

Lemma pushHistory_ok (snap : PrintJob) (h : list PrintJob) :
  snapshot_ok snap → Forall snapshot_ok h → (length h ≤ 100)%nat →
  Forall snapshot_ok (pushHistory snap h) ∧ (length (pushHistory snap h) ≤ 100)%nat.
Proof.
  intros Hs Hh Hl. unfold pushHistory.
  destruct (100 <? length (snap :: h))%nat eqn:E.
  - split; [apply Forall_take; by constructor|]. rewrite length_take. lia.
  - apply Nat.ltb_ge in E. split; [by constructor|done].
Qed.

Lemma map_Forall_alter_2 (P : string → PrintJob → Prop) (f : PrintJob → PrintJob)
    (k : string) (m : gmap string PrintJob) :
  map_Forall P m → (∀ j, m !! k = Some j → P k j → P k (f j)) →
  map_Forall P (alter f k m).
Proof.
  intros Hm Hf k' j'. destruct (decide (k' = k)) as [->|Hne].
  - rewrite lookup_alter_eq. destruct (m !! k) as [j|] eqn:Hj; [|done].
    intros [= <-]. apply Hf; [done|]. by apply Hm.
  - rewrite lookup_alter_ne by done. apply Hm.
Qed.

Ltac job_goal :=
  unfold job_ok, snapshot_ok, unitCost in *; cbn in *;
  repeat match goal with H : _ ∧ _ |- _ => destruct H end;
  repeat split; intros; try tauto; try congruence; try discriminate; eauto.

Ltac queue_goal Hq :=
  repeat first
    [ exact Hq
    | apply map_Forall_insert_2
    | apply map_Forall_alter_2;
        [|let Hlk := fresh in
          intros ? Hlk _; rewrite lookup_insert_eq in Hlk; injection Hlk as <-]
    | apply map_Forall_delete ];
  try match goal with
      | Hj : printQueue _ !! ?k = Some ?p |- _ => pose proof (Hq k p Hj)
      end;
  job_goal.

Ltac history_goal Hq :=
  try (split; assumption);
  try (apply pushHistory_ok; [|assumption..]);
  try match goal with
      | Hj : printQueue _ !! ?k = Some ?p |- _ => pose proof (Hq k p Hj)
      end;
  job_goal.

Lemma response_inv (w : World) (msg : Message) (b : Bot) :
  invariant b → invariant (bot (exec (handleUserResponse w msg) b).2).
Proof.
  intros (Hq & Hh & Hl).
  unfold exec, handleUserResponse, processPrintJob, handleCopiesInput,
    handleOptionsInput, showPrintOptions, showUpdatedConfirmation, function.
  explore.
  all: unfold invariant; cbn -[lookup insert delete alter size includes].
  all: (split; [queue_goal Hq|]).
  all: history_goal Hq.
Qed.

Lemma upload_inv (w : World) (msg : Message) (up : Upload) (b : Bot) :
  invariant b → invariant (bot (exec (handleFileMessage w msg up) b).2).
Proof.
  intros (Hq & Hh & Hl).
  unfold exec, handleFileMessage, function.
  destruct (download up) eqn:Hd; destruct (validation up) eqn:Hv.
  all: crunch.
  all: unfold invariant; cbn -[lookup insert delete alter size includes].
  all: (split; [queue_goal Hq|]).
  all: history_goal Hq.
Qed.

Lemma gate_inv acc botId inb (b : Bot) :
  invariant b → invariant (Dispatch.handleMessage acc botId inb b).2.
Proof.
  intros Hinv. unfold Dispatch.handleMessage.
  rewrite RateLimiterFacts.checkRateLimit_spec. cbv zeta.
  repeat case_match; simplify_eq; exact Hinv.
Qed.

(** A loop keeps what each of its steps keeps, however it ends. *)
Lemma forEach_keeps {A} (P : Bot → Prop) (f : A → M unit) (l : list A) :
  (∀ x r, P (bot r) → P (bot (run (f x) r).2)) →
  ∀ r, P (bot r) → P (bot (run (forEach l f) r).2).
Proof.
  intros Hf. induction l as [|x l IH]; intros r Hr; [exact Hr|].
  cbn [forEach]. unfold mbind, M_bind. cbn [run].
  specialize (Hf x r Hr).
  destruct (run (f x) r) as [[[]| |e] r1]; cbn [snd] in *; auto.
Qed.

Lemma cleanupPrintJob_inv (w : World) (k : string) (r : Run) :
  invariant (bot r) → invariant (bot (run (cleanupPrintJob w k) r).2).
Proof.
  intros (Hq & Hh & Hl). unfold cleanupPrintJob.
  cbn -[lookup delete elem_of difference].
  destruct (printQueue (bot r) !! k) as [j|];
    cbn -[lookup delete elem_of difference]; [|done].
  destruct (bool_decide (filePath j ∈ files (bot r)));
    [destruct (unlinkOk w (filePath j))|];
    cbn -[lookup delete elem_of difference];
    unfold invariant; cbn -[lookup delete elem_of difference];
    (split; [|done]); try done; by apply map_Forall_delete.
Qed.

Lemma sweep_jobs_inv (w : World) (b : Bot) :
  invariant b → invariant (bot (exec (cleanupOldPrintJobs w) b).2).
Proof.
  intros Hinv. unfold exec, cleanupOldPrintJobs.
  unfold mbind, M_bind. cbn [run get bot].
  pose proof (forEach_keeps invariant (visit w (now b))
                (map_to_list (printQueue b))) as Hloop.
  specialize (Hloop (λ x r H, ltac:(
    destruct x as [k j]; unfold visit; destruct (sweepable (now b) j);
    [by apply cleanupPrintJob_inv | exact H]))
    {| bot := b; trace := [] |} Hinv).
  destruct (run (forEach _ _) _) as [[[]| |e] r1]; cbn [snd] in *; try done.
  destruct (0 <? _)%nat; exact Hloop.
Qed.

Lemma sweep_sessions_inv (b : Bot) :
  invariant b → invariant (bot (exec Sweeper.cleanupOldSessions b).2).
Proof.
  intros Hinv. unfold exec, Sweeper.cleanupOldSessions.
  unfold mbind, M_bind. cbn [run get bot].
  pose proof (forEach_keeps invariant (Sweeper.visitSession (now b))
                (map_to_list (userSessions b))) as Hloop.
  specialize (Hloop (λ x r H, ltac:(
    destruct x as [k s]; unfold Sweeper.visitSession;
    destruct (Sweeper.stale (now b) s); exact H))
    {| bot := b; trace := [] |} Hinv).
  destruct (run (forEach _ _) _) as [[[]| |e] r1]; cbn [snd] in *; try done.
  destruct (0 <? _)%nat; exact Hloop.
Qed.

Lemma timer_inv (w : World) (i : nat) (b : Bot) :
  invariant b → invariant (bot (exec (Deferred.runTimer w i) b).2).
Proof.
  intros Hinv. unfold exec, Deferred.runTimer.
  unfold mbind, M_bind. cbn [run get bot].
  destruct (timers b !! i) as [[d [k]]|]; [|exact Hinv].
  cbn [run modify bot trace]. unfold fire. cbn [callback].
  apply cleanupPrintJob_inv. exact Hinv.
Qed.

Lemma step_inv (b b' : Bot) : step b b' → invariant b → invariant b'.
Proof.
  intros [] Hinv.
  - by apply gate_inv.
  - by apply upload_inv.
  - by apply response_inv.
  - by apply sweep_jobs_inv.
  - by apply sweep_sessions_inv.
  - by apply timer_inv.
  - exact Hinv.
Qed.

Lemma newBot_inv (cfg : Config) (t0 : Z) : invariant (newBot cfg t0).
Proof.
  split; [apply map_Forall_empty|]. split; [constructor|cbn; lia].
Qed.

Lemma reachable_inv (b : Bot) : reachable b → invariant b.
Proof.
  intros (cfg & t0 & Hrtc).
  revert b Hrtc. apply rtc_ind_r; [apply newBot_inv|].
  intros y z _ Hstep IH. by apply (step_inv y z).
Qed.

(** Reachability of the concrete bots of the scenarios. *)
Lemma reachable_step (b b' : Bot) : reachable b → step b b' → reachable b'.
Proof.
  intros (cfg & t0 & Hrtc) Hstep. exists cfg, t0. by eapply rtc_r.
Qed.

Lemma uploaded_reachable (cfg : Config) : reachable (Scenario.uploaded cfg).
Proof.
  apply (reachable_step (newBot cfg 1000)); [exists cfg, 1000; done|].
  apply step_upload.
Qed.

Lemma refused_reachable : reachable Scenario.refused.
Proof.
  apply (reachable_step _ _ (uploaded_reachable defaultConfig)), step_response.
Qed.

Lemma reopened_reachable : reachable Scenario.reopened.
Proof.
  unfold Scenario.reopened.
  eapply reachable_step; [|apply step_response].
  eapply reachable_step; [|apply step_response].
  apply refused_reachable.
Qed.

End ReachFacts.

(** X18. Paper size and quality never change.  In every bot that a fresh
    bot can become through the gate, uploads, conversation messages, sweeps,
    timers and the passing of time, each queued job is stored under its own
    id and still has the paper size [A4] and the quality [normal] it was
    created with: no input reaches a statement that sets either. *)
Theorem reachable_options_fixed (b : Bot) (k : string) (j : PrintJob) :
  Reach.reachable b →
  printQueue b !! k = Some j →
  id j = k
  ∧ paperSize (printOptions j) = "A4"%string
  ∧ quality (printOptions j) = "normal"%string.
Proof.
  intros Hr Hj. destruct (ReachFacts.reachable_inv b Hr) as (Hq & _).
  destruct (Hq k j Hj) as (H1 & H2 & H3 & _). done.
Qed.

(** The failed job of the refused confirmation, after the sender walked to
    the copies prompt. *)
Lemma reachable_options_fixed_witness :
  let j := with_status failed (with_startedAt 1000 (with_status printing Scenario.job1000)) in
  printQueue Scenario.reopened !! "1000"%string = Some j
  ∧ id j = "1000"%string
  ∧ paperSize (printOptions j) = "A4"%string
  ∧ quality (printOptions j) = "normal"%string.
Proof.
  intros j.
  assert (Hj : printQueue Scenario.reopened !! "1000"%string = Some j)
    by (vm_compute; reflexivity).
  split; [exact Hj|].
  exact (reachable_options_fixed Scenario.reopened "1000" j
           ReachFacts.reopened_reachable Hj).
Defined.

(** X19. The shape of the cost.  In every reachable bot the
    [estimatedCost] of a queued job is either pages times rate (as set at
    creation) or pages times rate times its current copies (as set by the
    last copies input), the rate being 2000 for colour and 500 otherwise. *)
Theorem reachable_cost_shape (b : Bot) (k : string) (j : PrintJob) :
  Reach.reachable b →
  printQueue b !! k = Some j →
  let rate := if color (printOptions j) then 2000 else 500 in
  estimatedCost j = pageCount j * rate
  ∨ estimatedCost j = pageCount j * rate * copies j.
Proof.
  intros Hr Hj. destruct (ReachFacts.reachable_inv b Hr) as (Hq & _).
  destruct (Hq k j Hj) as (_ & _ & _ & H & _). exact H.
Qed.

(** Under two default copies the uploaded job has the per-copy cost. *)
Lemma reachable_cost_shape_witness :
  let j := with_copies 2 Scenario.job1000 in
  printQueue (Scenario.uploaded Scenario.twoCopies) !! "1000"%string = Some j
  ∧ (estimatedCost j = pageCount j * 500
     ∨ estimatedCost j = pageCount j * 500 * copies j).
Proof.
  intros j.
  assert (Hj : printQueue (Scenario.uploaded Scenario.twoCopies) !! "1000"%string
               = Some j) by (vm_compute; reflexivity).
  split; [exact Hj|].
  exact (reachable_cost_shape (Scenario.uploaded Scenario.twoCopies) "1000" j
           (ReachFacts.uploaded_reachable Scenario.twoCopies) Hj).
Defined.

(** X20. The history holds completed jobs only.  In every reachable bot
    the history has at most 100 entries and each entry is a snapshot with
    status [completed] and both its start and completion stamps set; a failed
    job is never in it. *)
Theorem reachable_history_completed (b : Bot) :
  Reach.reachable b →
  (length (printHistory b) ≤ 100)%nat
  ∧ ∀ j, j ∈ printHistory b →
      status j = completed ∧ is_Some (startedAt j) ∧ is_Some (completedAt j).
Proof.
  intros Hr. destruct (ReachFacts.reachable_inv b Hr) as (_ & Hh & Hl).
  split; [exact Hl|]. intros j Hj.
  rewrite Forall_forall in Hh. destruct (Hh j Hj) as (H1 & H2 & H3). done.
Qed.

(** After the refused confirmation the history is still empty. *)
Lemma reachable_history_completed_witness :
  printHistory Scenario.refused = []
  ∧ (length (printHistory Scenario.refused) ≤ 100)%nat.
Proof.
  split; [vm_compute; reflexivity|].
  exact (proj1 (reachable_history_completed Scenario.refused
                  ReachFacts.refused_reachable)).
Defined.

(** X21. Status and stamps agree, as an invariant of the reachable bots:
    in every one of them a queued job is [pending] exactly when it has no
    start stamp, a [pending] job has neither a completion nor a failure
    stamp, and a [completed] job has its completion stamp.  This is said of
    the job a key holds in one state; it does not say what the same key
    holds later (an upload at an unchanged clock puts a fresh [pending] job
    under a key already in use). *)
Theorem reachable_status_stamps (b : Bot) (k : string) (j : PrintJob) :
  Reach.reachable b →
  printQueue b !! k = Some j →
  (status j = pending ↔ startedAt j = None)
  ∧ (status j = pending → completedAt j = None ∧ failedAt j = None)
  ∧ (status j = completed → is_Some (completedAt j)).
Proof.
  intros Hr Hj. destruct (ReachFacts.reachable_inv b Hr) as (Hq & _).
  destruct (Hq k j Hj) as (_ & _ & _ & _ & H1 & H2 & H3). done.
Qed.

(** The refused job is [failed] and has its start stamp. *)
Lemma reachable_status_stamps_witness :
  let j := with_status failed (with_startedAt 1000 (with_status printing Scenario.job1000)) in
  printQueue Scenario.refused !! "1000"%string = Some j
  ∧ (status j = pending ↔ startedAt j = None).
Proof.
  intros j.
  assert (Hj : printQueue Scenario.refused !! "1000"%string = Some j)
    by (vm_compute; reflexivity).
  split; [exact Hj|].
  exact (proj1 (reachable_status_stamps Scenario.refused "1000" j
                  ReachFacts.refused_reachable Hj)).
Defined.

(** ** The session sweep *)

Module SessionSweepFacts.

#[local] Set Warnings "-clear-no-such-hyp".

Lemma session_loop (t : Z) (l : list (string * Session)) :
  ∀ r, ∃ r',
    run (forEach l (Sweeper.visitSession t)) r = (Normal (), r')
    ∧ bot r' = with_userSessions (λ _, userSessions (bot r')) (bot r)
    ∧ trace r' = trace r
    ∧ (∀ k, (∃ s, (k, s) ∈ l ∧ Sweeper.stale t s = true) →
         userSessions (bot r') !! k = None)
    ∧ (∀ k, (∀ s, (k, s) ∈ l → Sweeper.stale t s = false) →
         userSessions (bot r') !! k = userSessions (bot r) !! k)
    ∧ (∀ k, userSessions (bot r) !! k = None → userSessions (bot r') !! k = None).
Proof.
  induction l as [|[k1 s1] l IH]; intros r.
  - exists r. split; [reflexivity|]. split; [by destruct r as [[]]|].
    split; [done|]. split; [|done].
    intros k (s & Hin & _). by apply elem_of_nil in Hin.
  - cbn [forEach]. unfold mbind, M_bind. cbn [run]. unfold Sweeper.visitSession at 1.
    destruct (Sweeper.stale t s1) eqn:Hst.
    + cbn [run sessionsDelete modify].
      destruct (IH {| bot := with_userSessions (delete k1) (bot r); trace := trace r |})
        as (r' & Hrun & Hbot & Htr & Hdel & Hkeep & Hnone).
      exists r'. split; [exact Hrun|]. cbn [bot trace] in *.
      split; [rewrite Hbot at 1; by destruct r as [[]]|]. split; [done|].
      split; [|split].
      * intros k (s & Hin & Hs).
        apply elem_of_cons in Hin as [[= -> ->]|Hin].
        -- apply Hnone. cbn. apply lookup_delete_eq.
        -- apply Hdel. eauto.
      * intros k Hall. rewrite Hkeep.
        -- cbn. apply lookup_delete_ne. intros <-.
           specialize (Hall s1 ltac:(left)). congruence.
        -- intros s Hin. apply Hall. by right.
      * intros k Hk. apply Hnone. cbn.
        destruct (decide (k = k1)) as [->|Hne];
          [apply lookup_delete_eq | by rewrite lookup_delete_ne].
    + cbn [run mret M_ret].
      destruct (IH r) as (r' & Hrun & Hbot & Htr & Hdel & Hkeep & Hnone).
      exists r'. split; [exact Hrun|]. split; [done|]. split; [done|].
      split; [|split; [|done]].
      * intros k (s & Hin & Hs).
        apply elem_of_cons in Hin as [[= -> ->]|Hin]; [congruence|].
        apply Hdel. eauto.
      * intros k Hall. apply Hkeep. intros s Hin. apply Hall. by right.
Qed.

End SessionSweepFacts.

(** X22. The session sweep.  [cleanupOldSessions] always returns; it
    deletes exactly the sessions whose last activity lies more than 15
    minutes (900000 ms) before the clock, keeps every other session as it is,
    creates none, and touches nothing but the session store: the job a
    deleted session pointed at stays in the queue. *)
Theorem cleanupOldSessions_sweeps_idle (b : Bot) :
  let r := exec Sweeper.cleanupOldSessions b in
  r.1 = Normal ()
  ∧ (∀ chat s, userSessions b !! chat = Some s →
       userSessions (bot r.2) !! chat
       = if 900000 <? now b - lastActivity s then None else Some s)
  ∧ (∀ chat, userSessions b !! chat = None → userSessions (bot r.2) !! chat = None)
  ∧ bot r.2 = with_userSessions (λ _, userSessions (bot r.2)) b.
Proof.
  intros r. subst r. unfold exec, Sweeper.cleanupOldSessions.
  unfold mbind, M_bind. cbn [run get bot].
  destruct (SessionSweepFacts.session_loop (now b) (map_to_list (userSessions b))
              {| bot := b; trace := [] |})
    as (r' & Hrun & Hbot & _ & Hdel & Hkeep & Hnone).
  rewrite Hrun. cbn [bot] in *.
  assert (Hsame : ∀ c r0, (run (if c : bool then log "info" "Old sessions cleaned"
                                else mret ()) r0).1 = Normal ()
                          ∧ bot (run (if c : bool then log "info" "Old sessions cleaned"
                                else mret ()) r0).2 = bot r0).
  { intros [] r0; done. }
  destruct (Hsame (0 <? length (List.filter
              (λ '(_, session), Sweeper.stale (now b) session)
              (map_to_list (userSessions b))))%nat r') as [H1 H2].
  split; [exact H1|]. rewrite H2. split; [|split; [exact Hnone|exact Hbot]].
  intros chat s Hs. change (900000 <? now b - lastActivity s)
    with (Sweeper.stale (now b) s).
  destruct (Sweeper.stale (now b) s) eqn:Hst.
  - apply Hdel. exists s. split; [by apply elem_of_map_to_list|done].
  - rewrite Hkeep; [done|]. intros s' Hin%elem_of_map_to_list. congruence.
Qed.

(** Twenty minutes after the upload the session is swept, the job is not. *)
Lemma cleanupOldSessions_sweeps_idle_witness :
  let b := with_now (λ _, 1000 + 20 * 60 * 1000) (Scenario.uploaded defaultConfig) in
  let r := exec Sweeper.cleanupOldSessions b in
  userSessions b !! Scenario.sender
    = Some {| step := confirm_print; printJobId := "1000"; lastActivity := 1000 |}
  ∧ userSessions (bot r.2) !! Scenario.sender = None
  ∧ printQueue (bot r.2) !! "1000"%string = Some Scenario.job1000.
Proof.
  intros b r.
  assert (Hs : userSessions b !! Scenario.sender
               = Some {| step := confirm_print; printJobId := "1000";
                         lastActivity := 1000 |}) by (vm_compute; reflexivity).
  destruct (cleanupOldSessions_sweeps_idle b) as (_ & Hdel & _ & Hbot).
  split; [exact Hs|]. split; [exact (Hdel _ _ Hs)|].
  subst r. rewrite Hbot. vm_compute. reflexivity.
Defined.

(** ** File intake *)

(** X23. A rejected upload leaves no trace in the bot.  When the download
    yields nothing, or throws, or the file does not pass validation, the
    handler ends normally and the bot is exactly as before: no job, no
    session, no file on disk. *)
Theorem handleFileMessage_rejected_upload (w : World) (b : Bot) (msg : Message)
    (up : Upload) :
  (∀ n, sendOk w n = true) →
  download up = DownloadNull ∨ download up = DownloadThrows
  ∨ (∃ filename message, download up = Downloaded filename
                          ∧ validation up = Invalid message) →
  (exec (handleFileMessage w msg up) b).1 = Normal ()
  ∧ bot (exec (handleFileMessage w msg up) b).2 = b.
Proof.
  intros Hsend Hrej.
  pose proof (Hsend 0%nat). pose proof (Hsend 1%nat).
  unfold exec, handleFileMessage, function.
  destruct Hrej as [Hd|[Hd|(f & m & Hd & Hv)]]; by crunch.
Qed.

(** A file of a format that is not allowed. *)
Lemma handleFileMessage_rejected_upload_witness :
  let up := {| download := Downloaded (Some "a.exe"%string);
               validation := Invalid "Format file tidak didukung.";
               analysis := {| a_pageCount := 1; hasColor := false |} |} in
  bot (exec (handleFileMessage Scenario.calm (Scenario.says "") up)
         (newBot defaultConfig 1000)).2
  = newBot defaultConfig 1000.
Proof.
  intros up.
  exact (proj2 (handleFileMessage_rejected_upload Scenario.calm
                  (newBot defaultConfig 1000) (Scenario.says "") up (λ _, eq_refl)
                  (or_intror (or_intror (ex_intro _ _ (ex_intro _ _
                     (conj eq_refl eq_refl))))))).
Defined.

Module IntakeFacts.

(** A successful upload, step by step: the bot it leaves. *)
Lemma handleFileMessage_accepts (w : World) (b : Bot) (msg : Message)
    (up : Upload) (filename : option string) (extension : string) (fileSize : Z) :
  (∀ n, sendOk w n = true) →
  download up = Downloaded filename →
  validation up = Valid extension fileSize →
  ∃ job,
    bot (exec (handleFileMessage w msg up) b).2
    = Lifecycle.moved (from msg) confirm_print (pretty (now b)) (now b)
        (with_printQueue <[pretty (now b) := job]>
           (with_files (λ fs, {[filePath job]} ∪ fs) b))
    ∧ id job = pretty (now b)
    ∧ chatId job = from msg
    ∧ status job = pending.
Proof.
  intros Hsend Hd Hv. pose proof (Hsend 0%nat). pose proof (Hsend 1%nat).
  unfold exec, handleFileMessage, function. crunch.
  match goal with
  | |- context [with_printQueue (insert _ ?j)] => exists j
  end.
  split; [reflexivity|]. done.
Qed.

(** A sweep keeps every job its guard does not select. *)
Lemma sweep_keeps (w : World) (b : Bot) (k : string) (j : PrintJob) :
  printQueue b !! k = Some j → sweepable (now b) j = false →
  printQueue (bot (exec (cleanupOldPrintJobs w) b).2) !! k = Some j.
Proof.
  intros Hq Hsw.
  destruct (SweepFacts.sweep_loop w (now b) (map_to_list (printQueue b))
              {| bot := b; trace := [] |})
    as (r' & Hrun & _ & _ & Hkeep & _).
  unfold exec, cleanupOldPrintJobs. unfold mbind, M_bind. cbn [run get bot].
  rewrite Hrun. destruct (0 <? _)%nat; cbn.
  - rewrite Hkeep; [exact Hq|].
    intros j' Hin%elem_of_map_to_list. cbn in Hin. congruence.
  - rewrite Hkeep; [exact Hq|].
    intros j' Hin%elem_of_map_to_list. cbn in Hin. congruence.
Qed.

End IntakeFacts.

(** X24. A second upload strands the first job.  When a chat whose session
    points at a queued job sends another file (at a later clock value, so
    with a new id), the session is re-pointed at the new job and the earlier
    job stays in the queue unchanged with no session of that chat leading to
    it; and if it is still [pending], no job sweep at any later time removes
    it. *)
Theorem second_upload_strands_first (w : World) (b : Bot) (msg : Message)
    (up : Upload) (filename : option string) (extension : string) (fileSize : Z)
    (s : Session) (j0 : PrintJob) :
  (∀ n, sendOk w n = true) →
  download up = Downloaded filename →
  validation up = Valid extension fileSize →
  userSessions b !! from msg = Some s →
  printQueue b !! printJobId s = Some j0 →
  printJobId s ≠ pretty (now b) →
  let b' := bot (exec (handleFileMessage w msg up) b).2 in
  printQueue b' !! printJobId s = Some j0
  ∧ userSessions b' !! from msg
    = Some {| step := confirm_print; printJobId := pretty (now b);
              lastActivity := now b |}
  ∧ (status j0 = pending →
     ∀ w' t, printQueue (bot (exec (cleanupOldPrintJobs w')
                                 (with_now (λ _, t) b')).2) !! printJobId s
             = Some j0).
Proof.
  intros Hsend Hd Hv Hs Hq Hne b'.
  destruct (IntakeFacts.handleFileMessage_accepts w b msg up _ _ _ Hsend Hd Hv)
    as (job & Hb' & _).
  fold b' in Hb'.
  assert (Hkeep : printQueue b' !! printJobId s = Some j0).
  { rewrite Hb'. cbn. by rewrite lookup_insert_ne. }
  split; [exact Hkeep|]. split.
  - rewrite Hb'. cbn. apply lookup_insert_eq.
  - intros Hpend w' t. apply IntakeFacts.sweep_keeps; [exact Hkeep|].
    unfold sweepable. rewrite Hpend. cbn. apply andb_false_r.
Qed.

(** X25. Two uploads in the same millisecond share an id.  The id of a job
    is the decimal clock value, so when two chats upload at the same clock
    value the second job replaces the first in the queue, and both sessions
    point at it: a confirmation from the first chat prints the second chat's
    file. *)
Theorem same_clock_uploads_collide (w : World) (b : Bot) (msgA msgB : Message)
    (upA upB : Upload) (fA fB : option string) (eA eB : string) (zA zB : Z) :
  (∀ n, sendOk w n = true) →
  download upA = Downloaded fA → validation upA = Valid eA zA →
  download upB = Downloaded fB → validation upB = Valid eB zB →
  from msgA ≠ from msgB →
  let b1 := bot (exec (handleFileMessage w msgA upA) b).2 in
  let b2 := bot (exec (handleFileMessage w msgB upB) b1).2 in
  printJobId <$> userSessions b2 !! from msgA = Some (pretty (now b))
  ∧ printJobId <$> userSessions b2 !! from msgB = Some (pretty (now b))
  ∧ chatId <$> printQueue b2 !! pretty (now b) = Some (from msgB).
Proof.
  intros Hsend HdA HvA HdB HvB Hne b1 b2.
  destruct (IntakeFacts.handleFileMessage_accepts w b msgA upA _ _ _ Hsend HdA HvA)
    as (jobA & Hb1 & _).
  fold b1 in Hb1.
  destruct (IntakeFacts.handleFileMessage_accepts w b1 msgB upB _ _ _ Hsend HdB HvB)
    as (jobB & Hb2 & _ & HchatB & _).
  fold b2 in Hb2.
  assert (Hnow : now b1 = now b) by (rewrite Hb1; reflexivity).
  rewrite Hnow in Hb2. rewrite Hb2. cbn. rewrite Hb1. cbn.
  rewrite lookup_insert_ne by done. rewrite !lookup_insert_eq. cbn.
  by rewrite HchatB.
Qed.

(** Two chats upload at clock 1000. *)
Lemma same_clock_uploads_collide_witness :
  let other := {| from := "6299@c.us"; body := "" |} in
  let b1 := Scenario.uploaded defaultConfig in
  let b2 := bot (exec (handleFileMessage Scenario.calm other Scenario.threePages) b1).2 in
  printJobId <$> userSessions b2 !! Scenario.sender = Some "1000"%string
  ∧ chatId <$> printQueue b2 !! "1000"%string = Some "6299@c.us"%string.
Proof.
  intros other b1 b2.
  destruct (same_clock_uploads_collide Scenario.calm (newBot defaultConfig 1000)
              (Scenario.says "") other Scenario.threePages Scenario.threePages
              _ _ _ _ _ _ (λ _, eq_refl) eq_refl eq_refl eq_refl eq_refl
              ltac:(discriminate)) as (HA & _ & HQ).
  split; [exact HA|exact HQ].
Defined.

(** A second file, sent at clock 2000, strands the job of clock 1000. *)
Lemma second_upload_strands_first_witness :
  let b := with_now (λ _, 2000) (Scenario.uploaded defaultConfig) in
  let b' := bot (exec (handleFileMessage Scenario.calm (Scenario.says "")
                         Scenario.threePages) b).2 in
  printQueue b !! "1000"%string = Some Scenario.job1000
  ∧ printQueue b' !! "1000"%string = Some Scenario.job1000
  ∧ userSessions b' !! Scenario.sender
    = Some {| step := confirm_print; printJobId := "2000"; lastActivity := 2000 |}.
Proof.
  intros b b'.
  assert (Hs : userSessions b !! from (Scenario.says "")
               = Some {| step := confirm_print; printJobId := "1000";
                         lastActivity := 1000 |}) by (vm_compute; reflexivity).
  assert (Hq : printQueue b !! "1000"%string = Some Scenario.job1000)
    by (vm_compute; reflexivity).
  destruct (second_upload_strands_first Scenario.calm b (Scenario.says "")
              Scenario.threePages _ _ _ _ Scenario.job1000 (λ _, eq_refl)
              eq_refl eq_refl Hs Hq ltac:(discriminate)) as (Hkeep & Hses & _).
  split; [exact Hq|]. split; [exact Hkeep|exact Hses].
Defined.

(** ** The print command *)

Module ViewFacts.

Lemma append_assoc (s1 s2 s3 : string) :
  ((s1 +:+ s2) +:+ s3)%string = (s1 +:+ (s2 +:+ s3))%string.
Proof.
  induction s1 as [|c s1 IH]; [done|].
  change (String c ((s1 +:+ s2) +:+ s3) = String c (s1 +:+ (s2 +:+ s3))).
  by f_equal.
Qed.

End ViewFacts.

(** X26. What the printer is asked for.  For a queued job of a reachable
    bot: on [win32] the command is built from the file path alone, so the
    copies and the duplex flag have no influence on it; on every other
    platform the command is [lpr] with the printer name, the copies, the
    duplex option when the flag is set, and the quoted file path, and nothing
    else: no media and no print-quality option is ever passed. *)
Theorem printCommand_of_reachable_job (b : Bot) (k : string) (j : PrintJob)
    (platform name : string) :
  Reach.reachable b →
  printQueue b !! k = Some j →
  (platform = "win32"%string →
   Views.printCommand platform name j
   = ("powershell -Command " +:+ Views.dquote +:+ "Start-Process -FilePath '"
      +:+ filePath j +:+ "' -Verb Print -Wait" +:+ Views.dquote)%string)
  ∧ (platform ≠ "win32"%string →
     Views.printCommand platform name j
     = ("lpr -P " +:+ name +:+ " -# " +:+ pretty (copies j)
        +:+ (if duplex (printOptions j) then " -o sides=two-sided-long-edge" else "")
        +:+ " " +:+ Views.dquote +:+ filePath j +:+ Views.dquote)%string).
Proof.
  intros Hr Hj. destruct (ReachFacts.reachable_inv b Hr) as (Hq & _).
  destruct (Hq k j Hj) as (_ & Hpaper & Hqual & _).
  split.
  - intros ->. unfold Views.printCommand. cbn.
    repeat (rewrite ViewFacts.append_assoc; cbn). reflexivity.
  - intros Hp. unfold Views.printCommand. rewrite Hpaper, Hqual.
    apply String.eqb_neq in Hp. rewrite Hp.
    destruct (String.eqb platform "darwin"), (duplex (printOptions j)); cbn;
      repeat (rewrite ViewFacts.append_assoc; cbn); reflexivity.
Qed.

(** The failed job of the refused confirmation, on Linux. *)
Lemma printCommand_of_reachable_job_witness :
  let j := with_status failed (with_startedAt 1000 (with_status printing Scenario.job1000)) in
  printQueue Scenario.refused !! "1000"%string = Some j
  ∧ Views.printCommand "linux" "default" j
    = ("lpr -P default -# 1 " +:+ Views.dquote +:+ "temp/print_6281_1000.pdf"
       +:+ Views.dquote)%string.
Proof.
  intros j.
  assert (Hj : printQueue Scenario.refused !! "1000"%string = Some j)
    by (vm_compute; reflexivity).
  split; [exact Hj|].
  etrans; [exact (proj2 (printCommand_of_reachable_job Scenario.refused "1000" j
                           "linux" "default" ReachFacts.refused_reachable Hj)
                    ltac:(discriminate))|].
  vm_compute. reflexivity.
Defined.

(** ** The history views *)

(** X27. What the history views can show.  On a reachable bot the list of
    [sendUserHistory] for a sender has at most ten entries, is a sublist of
    the history (newest first, as stored), and holds only completed jobs of
    that sender; and the counters of [sendBotStats] always report zero failed
    jobs, with the completed count equal to the length of the history. *)
Theorem history_views_of_reachable_bot (b : Bot) (u : string) :
  Reach.reachable b →
  (length (Views.userHistory u (printHistory b)) ≤ 10)%nat
  ∧ Views.userHistory u (printHistory b) `sublist_of` printHistory b
  ∧ (∀ j, j ∈ Views.userHistory u (printHistory b) →
       userNumber j = u ∧ status j = completed)
  ∧ Views.failedJobs (Views.botStats b) = 0%nat
  ∧ Views.completedJobs (Views.botStats b) = length (printHistory b)
  ∧ Views.totalJobs (Views.botStats b)
    = (Views.completedJobs (Views.botStats b) + Views.activeQueue (Views.botStats b))%nat.
Proof.
  intros Hr. destruct (ReachFacts.reachable_inv b Hr) as (_ & Hh & _).
  unfold Views.userHistory, Views.botStats. cbn.
  assert (Hall : ∀ j, j ∈ printHistory b → status j = completed).
  { intros j Hj. rewrite Forall_forall in Hh. by destruct (Hh j Hj). }
  assert (Hc : length (List.filter (λ job, bool_decide (status job = completed))
                         (printHistory b)) = length (printHistory b)).
  { clear Hh. induction (printHistory b) as [|j h IH]; [done|]. cbn.
    rewrite bool_decide_eq_true_2 by (apply Hall; left). cbn. f_equal.
    apply IH. intros j' Hj'. apply Hall. by right. }
  assert (Hf : length (List.filter (λ job, bool_decide (status job = failed))
                         (printHistory b)) = 0%nat).
  { clear Hh Hc. induction (printHistory b) as [|j h IH]; [done|]. cbn.
    rewrite bool_decide_eq_false_2.
    - apply IH. intros j' Hj'. apply Hall. by right.
    - rewrite (Hall j) by left. discriminate. }
  split; [rewrite length_take; lia|]. split.
  { etrans; [apply sublist_take|apply sublist_filter]. }
  split.
  { intros j Hj. apply elem_of_take in Hj as (i & Hj & _).
    apply list_elem_of_lookup_2 in Hj. apply list_elem_of_filter in Hj as [Hu Hj].
    split; [exact Hu|by apply Hall]. }
  rewrite Hc, Hf. done.
Qed.

(** After a print the sender's history has that one completed job. *)
Lemma history_views_of_reachable_bot_witness :
  let b := bot (exec (handleUserResponse Scenario.calm (Scenario.says "YA"))
                  (Scenario.uploaded defaultConfig)).2 in
  length (Views.userHistory "6281" (printHistory b)) = 1%nat
  ∧ Views.failedJobs (Views.botStats b) = 0%nat
  ∧ Views.completedJobs (Views.botStats b) = 1%nat.
Proof.
  intros b.
  assert (Hr : Reach.reachable b).
  { apply (ReachFacts.reachable_step _ _ (ReachFacts.uploaded_reachable defaultConfig)),
      Reach.step_response. }
  destruct (history_views_of_reachable_bot b "6281" Hr) as (_ & _ & _ & Hf & Hc & _).
  split; [vm_compute; reflexivity|]. split; [exact Hf|].
  rewrite Hc. vm_compute. reflexivity.
Defined.

(** ** More on the rate limiter *)

Module RateLimiterMore.

Import RateLimiter RateLimiterFacts.

Lemma in_window_past (now : Z) (prev : list Z) :
  Forall (λ s, s ≤ now) prev → in_window now prev = recent (now - hour) prev.
Proof.
  unfold in_window, recent. induction 1 as [|s prev Hs _ IH]; [done|].
  rewrite !filter_cons. destruct (decide (now - hour < s)).
  - rewrite decide_True by done. by rewrite IH.
  - rewrite decide_False by tauto. exact IH.
Qed.

(** The last answer of a run, read off the grants before it. *)
Lemma last_answer (cfg : Config) (u : string) (calls : list (string * Z)) :
  ∀ last prev rl now,
    clock_monotone last (calls ++ [(u, now)]) →
    inv cfg u last prev rl →
    List.last (serve cfg (calls ++ [(u, now)]) rl).1 true
    = negb (maxRequestsPerHour cfg
            <=? length (in_window now
                          (prev ++ granted u calls (serve cfg calls rl).1)))%nat
    ∧ (length (in_window now (prev ++ granted u calls (serve cfg calls rl).1))
       ≤ maxRequestsPerHour cfg)%nat.
Proof.
  induction calls as [|[v t] calls IH]; intros last prev rl now Hmono Hinv.
  - cbn in Hmono. destruct Hmono as [Hle _]. cbn [app serve granted].
    rewrite checkRateLimit_spec. cbv zeta. rewrite app_nil_r.
    destruct Hinv as [[c [Hc Hs]] Hp Hb].
    rewrite Hs, recent_recent by lia.
    rewrite in_window_past
      by (eapply Forall_impl; [exact Hp|]; cbn; intros; lia).
    split; [by destruct (_ <=? _)%nat|].
    rewrite <- in_window_past
      by (eapply Forall_impl; [exact Hp|]; cbn; intros; lia).
    apply Hb.
  - cbn in Hmono. destruct Hmono as [Hle Hmono]. cbn [app serve].
    destruct (checkRateLimit cfg t v rl) as [a rl1] eqn:Hstep.
    pose proof (inv_step _ _ _ _ _ _ _ _ _ Hle Hinv Hstep) as Hinv'.
    specialize (IH t _ rl1 now Hmono Hinv').
    destruct (serve cfg (calls ++ [(u, now)]) rl1) as [bs rl2] eqn:Hrest.
    destruct (serve cfg calls rl1) as [bs' rl2'] eqn:Hrest'.
    cbn [fst snd granted] in *.
    assert (Hlast : List.last (a :: bs) true = List.last bs true).
    { destruct bs as [|x bs]; [|reflexivity].
      destruct calls as [|[??] ?]; cbn in Hrest;
        repeat (destruct (checkRateLimit _ _ _ _)); 
        try (destruct (serve _ _ _)); discriminate. }
    rewrite Hlast.
    destruct (a && bool_decide (v = u)); [|exact IH].
    by rewrite <- app_assoc in IH.
Qed.

(** Only the caller's own entry decides, and only it is changed. *)
Lemma serve_local (cfg : Config) (u : string) (calls : list (string * Z)) :
  ∀ rl1 rl2, rl1 !! u = rl2 !! u →
    granted u calls (serve cfg calls rl1).1
    = granted u (filter (λ c, c.1 = u) calls)
        (serve cfg (filter (λ c, c.1 = u) calls) rl2).1.
Proof.
  induction calls as [|[v t] calls IH]; intros rl1 rl2 Heq; [done|].
  rewrite filter_cons. cbn [fst serve].
  destruct (checkRateLimit cfg t v rl1) as [a1 rl1'] eqn:H1.
  rewrite checkRateLimit_spec in H1. cbv zeta in H1.
  destruct (decide (v = u)) as [->|Hne].
  - cbn [serve].
    destruct (checkRateLimit cfg t u rl2) as [a2 rl2'] eqn:H2.
    rewrite checkRateLimit_spec in H2. cbv zeta in H2.
    rewrite Heq in H1.
    assert (a1 = a2 ∧ rl1' !! u = rl2' !! u) as [-> Heq'].
    { destruct (_ <=? _)%nat; simplify_eq; by rewrite !lookup_insert_eq. }
    specialize (IH rl1' rl2' Heq').
    destruct (serve cfg calls rl1') as [bs1 ?].
    destruct (serve cfg _ rl2') as [bs2 ?]. cbn [fst granted] in *.
    destruct (a2 && bool_decide (u = u)); by rewrite IH.
  - assert (rl1' !! u = rl2 !! u) as Heq'.
    { destruct (_ <=? _)%nat; simplify_eq; by rewrite lookup_insert_ne. }
    specialize (IH rl1' rl2 Heq').
    destruct (serve cfg calls rl1') as [bs1 ?]. cbn [fst granted] in *.
    rewrite bool_decide_eq_false_2 by done. rewrite andb_false_r. exact IH.
Qed.

End RateLimiterMore.

(** X28. The limiter refuses only when the window is full.  In a run from
    the empty map with a clock that does not run backwards, a call of a
    sender is refused exactly when the sender already has
    [maxRequestsPerHour] granted calls in the hour before it; with fewer it
    is granted. *)
Theorem checkRateLimit_refuses_iff_full (cfg : Config) (t0 : Z)
    (calls : list (string * Z)) (u : string) (now : Z) :
  RateLimiter.clock_monotone t0 (calls ++ [(u, now)]) →
  List.last (RateLimiter.serve cfg (calls ++ [(u, now)]) ∅).1 true = false
  ↔ length (RateLimiter.in_window now
              (RateLimiter.granted u calls (RateLimiter.serve cfg calls ∅).1))
    = maxRequestsPerHour cfg.
Proof.
  intros Hmono.
  destruct (RateLimiterMore.last_answer cfg u calls t0 [] ∅ now Hmono
              (RateLimiterFacts.inv_init cfg u t0)) as [Hlast Hbound].
  cbn [app] in Hlast, Hbound. rewrite Hlast.
  destruct (_ <=? _)%nat eqn:E; cbn.
  - apply Nat.leb_le in E. split; [lia|done].
  - apply Nat.leb_gt in E. split; [done|lia].
Qed.

(** Under a cap of two the third call within the hour is refused. *)
Lemma checkRateLimit_refuses_iff_full_witness :
  let cfg := {| defaultCopies := 1; maxRequestsPerHour := 2 |} in
  let calls := [("6281", 1000); ("6299", 1500); ("6281", 2000)]%string in
  RateLimiter.clock_monotone 0 (calls ++ [("6281"%string, 3000)])
  ∧ List.last (RateLimiter.serve cfg (calls ++ [("6281"%string, 3000)]) ∅).1 true
    = false.
Proof.
  intros cfg calls.
  assert (Hmono : RateLimiter.clock_monotone 0 (calls ++ [("6281"%string, 3000)]))
    by (cbn; lia).
  split; [exact Hmono|].
  apply (checkRateLimit_refuses_iff_full cfg 0 calls "6281" 3000 Hmono).
  vm_compute. reflexivity.
Defined.

(** X29. Senders do not disturb each other.  The calls of a sender that a
    run grants (their clock values, in order) are the ones it would grant if
    nobody else had called: the calls of other senders neither use up the
    sender's allowance nor free it. *)
Theorem checkRateLimit_senders_independent (cfg : Config)
    (calls : list (string * Z)) (u : string) :
  RateLimiter.granted u calls (RateLimiter.serve cfg calls ∅).1
  = RateLimiter.granted u (filter (λ c, c.1 = u) calls)
      (RateLimiter.serve cfg (filter (λ c, c.1 = u) calls) ∅).1.
Proof. by apply RateLimiterMore.serve_local. Qed.
